(** * gormdb2struct: the resolution pipeline, embedded and verified

    A shallow embedding of the Go sources of gormdb2struct
    (the [main] package and [pgtypes]) together with the properties of
    their type resolution, relation-field synthesis, tag overrides,
    configuration merge and validation, and materialized-view snapshots.

    Conventions of the embedding:
    - a Go [string] is a sequence of bytes: Rocq's [string];
    - a Go [map[string]V] is a [gmap string V]; a [nil] map reads like the
      empty map, and the code replaces [nil] by an empty map before it
      writes, so both are [∅];
    - a [for k, v := range m] loop over a Go map visits the entries in an
      order the language leaves unspecified: the loop is a fold over a
      list that is some permutation of the entries ([go_range]);
    - [log.Fatal] and [os.Exit] end the process at once, without running
      deferred calls; a deferred call runs when its function returns;
    - functions of other packages (the generator, the naming strategy,
      [strcase]) are variables of a section. *)

From Stdlib Require Import ZArith Ascii String.
From stdpp Require Import base strings list gmap fin_maps.

Local Open Scope Z_scope.

(** ** Go's [strings] package, on byte strings *)
Module GoStrings.

(** [len(s)] *)
Definition len (s : string) : Z := Z.of_nat (String.length s).

(** [strings.HasPrefix(s, prefix)] *)
Fixpoint HasPrefix (s prefix : string) : bool :=
  match prefix, s with
  | EmptyString, _ => true
  | String _ _, EmptyString => false
  | String b prefix', String a s' =>
      if Ascii.eqb a b then HasPrefix s' prefix' else false
  end.

(** The scan behind [strings.LastIndex]: [s] is the suffix of the
    subject that starts at byte offset [i], and [found] the offset of the
    last occurrence seen so far. *)
Fixpoint lastIndexFrom (s substr : string) (i found : Z) : Z :=
  let found' := if HasPrefix s substr then i else found in
  match s with
  | EmptyString => found'
  | String _ s' => lastIndexFrom s' substr (i + 1) found'
  end.

(** [strings.LastIndex(s, substr)]: the byte offset of the last
    occurrence of [substr] in [s], or [-1]. *)
Definition LastIndex (s substr : string) : Z := lastIndexFrom s substr 0 (-1).

Fixpoint skip (n : nat) (s : string) : string :=
  match n, s with
  | O, _ => s
  | S _, EmptyString => EmptyString
  | S n', String _ s' => skip n' s'
  end.

(** The slice expression [s[i:]]; it panics ([None]) when [i] is out of
    the range [0 .. len(s)]. *)
Definition sliceFrom (s : string) (i : Z) : option string :=
  if (0 <=? i) && (i <=? len s) then Some (skip (Z.to_nat i) s) else None.

(** A byte occurs in a string. *)
Definition occurs (c : ascii) (s : string) : Prop :=
  In c (list_ascii_of_string s).

(** Bytes given by their codes. *)
Definition bytes (l : list nat) : string :=
  string_of_list_ascii (ascii_of_nat <$> l).

(** The white space of [unicode.IsSpace], as UTF-8 byte sequences:
    the six ASCII characters, U+0085, U+00A0, U+1680, U+2000 to U+200A,
    U+2028, U+2029, U+202F, U+205F and U+3000. *)
Definition spaces : list string :=
  ((bytes <$> [[9]; [10]; [11]; [12]; [13]; [32]; [194; 133]; [194; 160];
               [225; 154; 128]])
   ++ ((λ b, bytes [226; 128; b]) <$> seq 128 11)
   ++ (bytes <$> [[226; 128; 168]; [226; 128; 169]; [226; 128; 175];
                  [226; 129; 159]; [227; 128; 128]]))%nat.

(** One leading white-space character removed, if there is one. *)
Definition stripSpace (sps : list string) (s : string) : option string :=
  (λ sp, skip (String.length sp.2) s) <$> list_find (λ sp, HasPrefix s sp) sps.

Fixpoint trimLeft (fuel : nat) (sps : list string) (s : string) : string :=
  match fuel with
  | O => s
  | S fuel' =>
      match stripSpace sps s with
      | Some s' => trimLeft fuel' sps s'
      | None => s
      end
  end.

Definition rev (s : string) : string :=
  string_of_list_ascii (reverse (list_ascii_of_string s)).

(** [strings.TrimSpace(s)]: leading and trailing white space removed. *)
Definition TrimSpace (s : string) : string :=
  let l := trimLeft (String.length s) spaces s in
  rev (trimLeft (String.length l) (rev <$> spaces) (rev l)).

Definition isDigit (c : ascii) : bool :=
  (48 <=? nat_of_ascii c)%nat && (nat_of_ascii c <=? 57)%nat.

Fixpoint digits (s : string) (acc : Z) : option Z :=
  match s with
  | EmptyString => Some acc
  | String c s' =>
      if isDigit c
      then digits s' (10 * acc + (Z.of_nat (nat_of_ascii c) - 48))
      else None
  end.

(** [strconv.Atoi(s)]: an optional sign and at least one decimal digit,
    within the 64-bit range of [int]; [None] is the error. *)
Definition Atoi (s : string) : option Z :=
  match s with
  | EmptyString => None
  | String c s' =>
      let '(neg, body) :=
        if Ascii.eqb c "-" then (true, s')
        else if Ascii.eqb c "+" then (false, s') else (false, s) in
      match body with
      | EmptyString => None
      | _ =>
          n ← digits body 0;
          let v := if neg : bool then - n else n in
          if (- 2 ^ 63 <=? v) && (v <? 2 ^ 63) then Some v else None
      end
  end.

End GoStrings.
Import GoStrings.

(** ** The data of the generator library ([gorm.io/gen]) *)

(** Package [gorm.io/gen/field]. *)
Module field.

(** [field.RelationshipType] and its constants. *)
Inductive RelationshipType := HasOne | HasMany | BelongsTo | Many2Many.

Record Relation := {
  relationship : RelationshipType;
  fieldName : string;
  fieldType : string;
}.

(** [field.NewRelationWithType(relationship, fieldName, fieldType)] *)
Definition NewRelationWithType
    (r : RelationshipType) (name type : string) : Relation :=
  {| relationship := r; fieldName := name; fieldType := type |}.

End field.

(** Package [gorm.io/gen]: the parts of a generated field and of a
    generated model that this program reads or writes. [field.Tag] is a
    [map[string]string], [field.GormTag] a [map[string][]string]; their
    [Set] methods store one entry. *)
Module gen.

Record Field := {
  Name : string;
  Type_ : string;
  ColumnName : string;
  Tag : gmap string string;
  GORMTag : gmap string (list string);
  Relation : option field.Relation;
}.

(** [gen.FieldNew(name, type, nil)(nil)]: a fresh field. *)
Definition FieldNew (name type : string) : Field :=
  {| Name := name; Type_ := type; ColumnName := "";
     Tag := ∅; GORMTag := ∅; Relation := None |}.

(** [f.Tag.Set(key, value)] *)
Definition Tag_Set (f : Field) (key value : string) : Field :=
  {| Name := Name f; Type_ := Type_ f; ColumnName := ColumnName f;
     Tag := <[key := value]> (Tag f); GORMTag := GORMTag f;
     Relation := Relation f |}.

(** The generated model ([*generate.QueryStructMeta]). *)
Record Model := {
  ModelStructName : string;
  TableName : string;
  FileName : string;
  Fields : list Field;
}.

(** [model.Fields = fields] *)
Definition withFields (m : Model) (fields : list Field) : Model :=
  {| ModelStructName := ModelStructName m; TableName := TableName m;
     FileName := FileName m; Fields := fields |}.

(** [model.FileName = name; model.TableName = name] *)
Definition renamed (m : Model) (name : string) : Model :=
  {| ModelStructName := ModelStructName m; TableName := name;
     FileName := name; Fields := Fields m |}.

End gen.

(** What the reflection step reports of a column ([gorm.ColumnType]): the
    name of its database type, under which the generator looks up a
    data-type hook, and its column type, which [ColumnType()] returns
    together with an [ok] flag. *)
Record ColumnType := {
  DatabaseTypeName : string;
  ColumnType_ : option string;
}.

(** Package [gorm.io/gorm/schema]: the settings of a naming strategy. *)
Module schema.
Record NamingStrategy := {
  TablePrefix : string;
  SingularTable : bool;
  NoLowerCase : bool;
  IdentifierMaxLength : Z;
}.
End schema.

(** Package [utilities]: the argument of [DbDSN]. *)
Module utilities.
Record DbDSNConfig := {
  Server : string;
  Port : Z;
  Name : string;
  User : string;
  Password : string;
  SSLMode : bool;
}.
End utilities.

(** ** The data of package [main] *)

Record ExtraField := {
  StructPropName : string;
  StructPropType : string;
  FkStructPropName : string;
  RefStructPropName : string;
  HasMany : bool;
  Pointer : bool;
}.

(** [DatabaseDialect] is a string type; its two constants. *)
Definition POSTGRESQL : string := "postgresql".
Definition SQLITE : string := "sqlite".

Record ConversionConfig := {
  DatabaseDialect : string;
  OutPath : string;
  OutPackagePath : string;
  ImportPackagePaths : list string;
  Tables : option (list string);
  MaterializedViews : option (list string);
  JsonTagOverridesByTable : gmap string (gmap string string);
  ExtraFields : gmap string (list ExtraField);
  TypeMap : gmap string string;
  DomainTypeMap : gmap string string;
  NamingStrategy : schema.NamingStrategy;
  CleanUp : bool;
  GenerateDbInit : bool;
  IncludeAutoMigrate : bool;
  DbHost : string;
  DbPort : Z;
  DbName : string;
  DbUser : string;
  DbPassword : string;
  DbSSLMode : bool;
  Sqlitedbpath : string;
}.

(** The assignments to [cfg.TypeMap], [cfg.DomainTypeMap] and
    [cfg.ImportPackagePaths]. *)
Definition withMaps (cfg : ConversionConfig)
    (typeMap domainTypeMap : gmap string string) (imports : list string)
    : ConversionConfig :=
  {| DatabaseDialect := DatabaseDialect cfg; OutPath := OutPath cfg;
     OutPackagePath := OutPackagePath cfg; ImportPackagePaths := imports;
     Tables := Tables cfg; MaterializedViews := MaterializedViews cfg;
     JsonTagOverridesByTable := JsonTagOverridesByTable cfg;
     ExtraFields := ExtraFields cfg; TypeMap := typeMap;
     DomainTypeMap := domainTypeMap; NamingStrategy := NamingStrategy cfg;
     CleanUp := CleanUp cfg; GenerateDbInit := GenerateDbInit cfg;
     IncludeAutoMigrate := IncludeAutoMigrate cfg; DbHost := DbHost cfg;
     DbPort := DbPort cfg; DbName := DbName cfg; DbUser := DbUser cfg;
     DbPassword := DbPassword cfg; DbSSLMode := DbSSLMode cfg;
     Sqlitedbpath := Sqlitedbpath cfg |}.

(** The assignments to the connection fields of [cfg]. *)
Definition withConnection (cfg : ConversionConfig)
    (host : string) (port : Z) (name user password : string)
    : ConversionConfig :=
  {| DatabaseDialect := DatabaseDialect cfg; OutPath := OutPath cfg;
     OutPackagePath := OutPackagePath cfg;
     ImportPackagePaths := ImportPackagePaths cfg;
     Tables := Tables cfg; MaterializedViews := MaterializedViews cfg;
     JsonTagOverridesByTable := JsonTagOverridesByTable cfg;
     ExtraFields := ExtraFields cfg; TypeMap := TypeMap cfg;
     DomainTypeMap := DomainTypeMap cfg; NamingStrategy := NamingStrategy cfg;
     CleanUp := CleanUp cfg; GenerateDbInit := GenerateDbInit cfg;
     IncludeAutoMigrate := IncludeAutoMigrate cfg; DbHost := host;
     DbPort := port; DbName := name; DbUser := user;
     DbPassword := password; DbSSLMode := DbSSLMode cfg;
     Sqlitedbpath := Sqlitedbpath cfg |}.

(** The built-in defaults, the package variable [conversionConfig]: only
    [TypeMap] and [ImportPackagePaths] are set. *)
Definition conversionConfig_TypeMap : gmap string string :=
  list_to_map [("jsonb", "datatypes.JSONMap"); ("uuid", "datatypes.UUID")].

Definition conversionConfig_DomainTypeMap : gmap string string := ∅.

Definition conversionConfig_ImportPackagePaths : list string :=
  ["github.com/dan-sherwin/gormdb2struct/pgtypes"].

(** ** Package [pgtypes]: the built-in mapping of PostgreSQL types *)
Module pgtypes.

Definition entries : list (string * string) := [
  ("text[]", "pgtypes.StringArray");
  ("varchar[]", "pgtypes.StringArray");
  ("integer[]", "pgtypes.Int32Array");
  ("int4[]", "pgtypes.Int32Array");
  ("int8[]", "pgtypes.Int64Array");
  ("bigint[]", "pgtypes.Int64Array");
  ("bool[]", "pgtypes.BoolArray");
  ("boolean[]", "pgtypes.BoolArray");
  ("uuid[]", "pgtypes.UUIDArray");
  ("float8[]", "pgtypes.Float64Array");
  ("double precision[]", "pgtypes.Float64Array");
  ("timestamptz[]", "pgtypes.TimeArray");
  ("timestamp[]", "pgtypes.TimeArray");
  ("timestamp with time zone[]", "pgtypes.TimeArray");
  ("timestamp without time zone[]", "pgtypes.TimeArray");
  ("interval", "pgtypes.Duration");
  ("interval[]", "pgtypes.DurationArray");
  ("bool", "bool");
  ("int2", "int16");
  ("int4", "int32");
  ("int8", "int64");
  ("float4", "float32");
  ("float8", "float64");
  ("numeric", "string");
  ("text", "string");
  ("varchar", "string");
  ("bpchar", "string");
  ("char", "string");
  ("name", "string");
  ("bytea", "[]byte");
  ("uuid", "uuid.UUID");
  ("json", "json.RawMessage");
  ("jsonb", "json.RawMessage");
  ("xml", "string");
  ("date", "time.Time");
  ("timestamp", "time.Time");
  ("timestamptz", "time.Time");
  ("time", "string");
  ("timetz", "string");
  ("inet", "net.IPNet");
  ("cidr", "net.IPNet");
  ("macaddr", "net.HardwareAddr");
  ("macaddr8", "net.HardwareAddr");
  ("bit", "string");
  ("varbit", "string");
  ("tsvector", "string");
  ("tsquery", "string");
  ("oid", "uint32");
  ("regclass", "uint32");
  ("regproc", "uint32");
  ("regprocedure", "uint32");
  ("regtype", "uint32");
  ("regrole", "uint32");
  ("regnamespace", "uint32");
  ("regconfig", "uint32");
  ("regdictionary", "uint32");
  ("pg_lsn", "string");
  ("txid_snapshot", "string");
  ("point", "string");
  ("line", "string");
  ("lseg", "string");
  ("box", "string");
  ("path", "string");
  ("polygon", "string");
  ("circle", "string");
  ("int4range", "string");
  ("int8range", "string");
  ("numrange", "string");
  ("tsrange", "string");
  ("tstzrange", "string");
  ("daterange", "string");
  ("int4multirange", "string");
  ("int8multirange", "string");
  ("nummultirange", "string");
  ("tsmultirange", "string");
  ("tstzmultirange", "string");
  ("datemultirange", "string");
  ("money", "string")
].

Definition PgTypeMap : gmap string string := list_to_map entries.

End pgtypes.

(** ** Iteration over Go maps *)

(** The order in which [for k, v := range m] visits the entries of a map
    is left open by the language and changes from one run to the next. An
    iteration order is any function that lists the entries of each map in
    some order; the code is embedded over an arbitrary one. *)
Record GoRange := {
  range : ∀ V : Type, gmap string V → list (string * V);
  range_perm : ∀ (V : Type) (m : gmap string V), range V m ≡ₚ map_to_list m;
}.
Arguments range _ {V} _.

(** ** The environment of the program *)

(** The statements sent to the database by [sqldb.Query]. *)
Inductive Stmt :=
| DropViewIfExists (name : string)
| CreateView (name source : string)
| DropView (name : string).

(** Their text, as the code concatenates it. *)
Definition sql (s : Stmt) : string :=
  match s with
  | DropViewIfExists name => "drop view if exists " +:+ name
  | CreateView name source =>
      "create view " +:+ name +:+ " as select * from " +:+ source
  | DropView name => "drop view " +:+ name
  end.

(** The two catalog queries of the enumeration. *)
Inductive Catalog := InformationSchemaTables | PgMatviews.

(** The data handed to the template of the connection-initialization
    file. *)
Record DbInitData := {
  PackageName : string;
  FullPackageName : string;
  data_DbHost : string;
  data_DbPort : Z;
  data_DbName : string;
  data_DbUser : string;
  data_DbPassword : string;
  data_DbSSLMode : bool;
  data_IncludeAutoMigrate : bool;
  ModelStructNames : list string;
}.

(** What a run does to the outside, in order. *)
Inductive Event :=
| EvStderr (text : string)
| EvOpen (dsn : string)
| EvPing
| EvGlob (pattern : string)
| EvRemove (file : string)
| EvScan (c : Catalog)
| EvQuery (s : Stmt) (failed : bool)
| EvGenerateModel (table : string)
| EvGenerateModelAs (source name : string)
| EvApplyBasic (models : list gen.Model)
| EvExecute
| EvWriteFile (file : string) (data : DbInitData).

(** Database or file work, as opposed to a message to the user. *)
Definition isWork (e : Event) : bool :=
  match e with
  | EvStderr _ => false
  | _ => true
  end.

(** The collaborators of the program: other packages, the process
    environment, the file system and the database server. Errors are
    [None], or a flag that is [true] when the call failed. *)
Class External := {
  (** [strcase.ToLowerCamel] *)
  ToLowerCamel : string → string;
  (** [schema.NamingStrategy.SchemaName] *)
  SchemaName : schema.NamingStrategy → string → string;
  (** [filepath.Base], [filepath.Join], [filepath.Glob], [os.WriteFile] *)
  Base : string → string;
  Join : string → string → string;
  Glob : string → option (list string);
  WriteFile : string → bool;
  (** [os.Getenv] *)
  Getenv : string → string;
  (** [utilities.DbDSN] *)
  DbDSN : utilities.DbDSNConfig → string;
  (** the database server: [gorm.Open], [Ping], the catalog queries and
      [sqldb.Query] *)
  DB : Type;
  Open : string → option DB;
  Ping : DB → bool;
  Scan : DB → Catalog → option (list string);
  Query : DB → Stmt → DB * bool;
  (** the generator: the type it infers for a column by itself, schema
      reflection under the installed data-type hooks, and the models it
      holds in [g.Data] after [ApplyBasic] *)
  generatorDefault : ColumnType → string;
  GenerateModel : gmap string (ColumnType → string) → DB → string → gen.Model;
  GenerateModelAs :
    gmap string (ColumnType → string) → DB → string → string → gen.Model;
  ApplyBasic : list gen.Model → gmap string gen.Model;
  (** [sqliteToGorm], of another file of the package: its events and its
      exit status *)
  sqliteToGorm : ConversionConfig → list Event * Z;
}.

(** ** Relation fields, tag overrides and type resolution *)
Section Resolution.
Context `{External}.

(** [genRelationField(ef, fld)]: the field [fld] after the call, or
    [None] if the slice expression panics. *)
Definition genRelationField (ef : ExtraField) (fld : gen.Field)
    : option gen.Field :=
  let lastDotIndex := LastIndex (StructPropType ef) "." in
  baseType ←
    (if decide (lastDotIndex ≠ -1)
     then sliceFrom (StructPropType ef) (lastDotIndex + 1)
     else Some (StructPropType ef));
  let baseType := if Pointer ef then "*" +:+ baseType else baseType in
  let baseType := if HasMany ef then "[]" +:+ baseType else baseType in
  let t := <["json" := ToLowerCamel (StructPropName ef)]> ∅ in
  let gormTag :=
    <["references" := [RefStructPropName ef]]>
      (<["foreignKey" := [FkStructPropName ef]]> ∅) in
  let r := if HasMany ef then field.HasMany else field.HasOne in
  Some {| gen.Name := StructPropName ef;
          gen.Type_ := baseType;
          gen.ColumnName := gen.ColumnName fld;
          gen.Tag := t;
          gen.GORMTag := gormTag;
          gen.Relation :=
            Some (field.NewRelationWithType
                    r (StructPropName ef) (StructPropType ef)) |}.

(** The loop over [cfg.ExtraFields[tableName]]: one fresh field per
    specification, appended to the fields of the model. *)
Fixpoint addExtraFields (efs : list ExtraField) (fields : list gen.Field)
    : option (list gen.Field) :=
  match efs with
  | [] => Some fields
  | ef :: efs' =>
      f ← genRelationField ef (gen.FieldNew "" "");
      addExtraFields efs' (fields ++ [f])
  end.

(** The body of the loop over [model.Fields] under an override map. *)
Definition overrideJsonTag (jsonTagOverrides : gmap string string)
    (f : gen.Field) : gen.Field :=
  match jsonTagOverrides !! gen.ColumnName f with
  | Some jsonTag => gen.Tag_Set f "json" jsonTag
  | None =>
      match jsonTagOverrides !! gen.Name f with
      | Some jsonTag => gen.Tag_Set f "json" jsonTag
      | None => f
      end
  end.

(** [if jsonTagOverrides, ok := cfg.JsonTagOverridesByTable[name]; ok] *)
Definition applyJsonTagOverrides (cfg : ConversionConfig) (name : string)
    (fields : list gen.Field) : list gen.Field :=
  match JsonTagOverridesByTable cfg !! name with
  | Some jsonTagOverrides => overrideJsonTag jsonTagOverrides <$> fields
  | None => fields
  end.

(** The closure [f(def)] installed for one database type. *)
Definition dataTypeHook (cfg : ConversionConfig) (def : string)
    (columnType : ColumnType) : string :=
  match ColumnType_ columnType with
  | Some colType =>
      match DomainTypeMap cfg !! colType with
      | Some domain => domain
      | None =>
          match TypeMap cfg !! colType with
          | Some pt => pt
          | None => def
          end
      end
  | None => def
  end.

(** [dtMaps], filled by the loop over [pgtypes.PgTypeMap]. *)
Definition dtMaps (rng : GoRange) (cfg : ConversionConfig)
    : gmap string (ColumnType → string) :=
  foldl (λ dt '(pgTypeStr, goTypeStr),
           <[pgTypeStr := dataTypeHook cfg goTypeStr]> dt)
        ∅ (range rng pgtypes.PgTypeMap).

(** The generator's side of [WithDataTypeMap]: the type of a column is
    given by the hook installed under the name of its database type, and
    by the generator's own inference when there is none. *)
Definition GetDataType (dt : gmap string (ColumnType → string))
    (columnType : ColumnType) : string :=
  match dt !! DatabaseTypeName columnType with
  | Some mapping => mapping columnType
  | None => generatorDefault columnType
  end.

(** The type the run emits for a column. *)
Definition resolvedType (rng : GoRange) (cfg : ConversionConfig)
    (columnType : ColumnType) : string :=
  GetDataType (dtMaps rng cfg) columnType.

End Resolution.

(** ** Runs *)

(** How a step ends: it goes on with a value; [log.Fatal] ends the process
    with status 1 at once, deferred calls are not run; a panic unwinds the
    function, which runs its deferred calls, and ends the process with
    status 2. *)
Inductive Res (A : Type) :=
| Ok (a : A)
| Fatal
| Panic.
Arguments Ok {A} a.
Arguments Fatal {A}.
Arguments Panic {A}.

Section Runs.
Context `{External}.

(** The state threaded through [postgresToGorm] once it is connected:
    the database, the deferred statements (the latest first) and the
    events so far. *)
Record St := {
  db : DB;
  deferred : list Stmt;
  events : list Event;
}.

(** A finished run: its events, its exit status, and the database it
    leaves behind, if it connected to one. *)
Record Run := {
  trace : list Event;
  status : Z;
  final : option DB;
}.

Definition M (A : Type) : Type := St → Res A * St.

Definition ret {A} (a : A) : M A := λ st, (Ok a, st).

Definition bind {A B} (m : M A) (k : A → M B) : M B :=
  λ st, match m st with
        | (Ok a, st') => k a st'
        | (Fatal, st') => (Fatal, st')
        | (Panic, st') => (Panic, st')
        end.

(** [log.Fatal(...)] *)
Definition fatal {A} : M A := λ st, (Fatal, st).

(** A panic of the Go runtime, for an optional value that is absent. *)
Definition orPanic {A} (o : option A) : M A :=
  λ st, match o with Some a => (Ok a, st) | None => (Panic, st) end.

(** A value that is a [log.Fatal] when absent. *)
Definition orFatal {A} (o : option A) : M A :=
  λ st, match o with Some a => (Ok a, st) | None => (Fatal, st) end.

Definition emit (e : Event) : M unit :=
  λ st, (Ok (), {| db := db st; deferred := deferred st;
                   events := events st ++ [e] |}).

Definition getDB : M DB := λ st, (Ok (db st), st).

(** [sqldb.Query(sql s)]: the flag tells whether it failed. *)
Definition query (s : Stmt) : M bool :=
  λ st, let '(db', failed) := Query (db st) s in
        (Ok failed, {| db := db'; deferred := deferred st;
                       events := events st ++ [EvQuery s failed] |}).

(** [defer sqldb.Query(sql s)] *)
Definition defer (s : Stmt) : M unit :=
  λ st, (Ok (), {| db := db st; deferred := s :: deferred st;
                   events := events st |}).

End Runs.

Notation "'let*' x ':=' m 'in' k" := (bind m (λ x, k))
  (at level 10, x pattern, m at level 100, k at level 200, only parsing).

Section Program.
Context `{External}.

(** A [for] loop over a slice, with the variables it updates. *)
Fixpoint forEach {A S : Type} (l : list A) (body : A → S → M S) (s : S)
    : M S :=
  match l with
  | [] => ret s
  | a :: l' => let* s' := body a s in forEach l' body s'
  end.

(** The deferred calls of a function, run when it returns: the latest
    first, their results dropped. *)
Definition runDeferred (st : St) : St :=
  foldl (λ st s, (query s st).2)
        {| db := db st; deferred := []; events := events st |}
        (deferred st).

Definition newline : string := String "010"%char EmptyString.

(** [usage(exitCode, errMsg)], for the program name [prog]: what it
    writes to the standard error, and the status it exits with. *)
Definition usage (prog : string) (exitCode : Z) (errMsg : string) : Run :=
  {| trace :=
       (if decide (TrimSpace errMsg ≠ "")
        then [EvStderr ("Error: " +:+ errMsg +:+ newline +:+ newline)]
        else [])
       ++ [EvStderr ("Usage:" +:+ newline +:+ "  " +:+ prog
                     +:+ " <config.toml>" +:+ newline +:+ "  " +:+ prog
                     +:+ " -generateConfigSample" +:+ newline +:+ "  "
                     +:+ prog +:+ " -version | --version" +:+ newline
                     +:+ newline);
           EvStderr ("Description:" +:+ newline);
           EvStderr ("  Generates GORM models and optional DB initializer code from an existing database." +:+ newline);
           EvStderr ("  Provide a TOML configuration file describing the database and generation options." +:+ newline);
           EvStderr ("  Use -generateConfigSample to write a sample configuration file named 'gormdb2struct-sample.toml' in the current directory." +:+ newline)];
     status := exitCode;
     final := None |}.

(** The merge loop of [main] for one map: a built-in entry is stored
    under a key the configuration does not have. *)
Definition mergeDefaults (rng : GoRange)
    (defaults cfgMap : gmap string string) : gmap string string :=
  foldl (λ m '(k, v),
           match m !! k with
           | Some _ => m
           | None => <[k := v]> m
           end)
        cfgMap (range rng defaults).

(** The merge of [ImportPackagePaths]: the missing built-in paths are
    appended, in order. *)
Definition mergeImports (defaults paths : list string) : list string :=
  let existing : gset string := list_to_set paths in
  foldl (λ ps p, if decide (p ∈ existing) then ps else ps ++ [p])
        paths defaults.

(** The three merges of [main]. *)
Definition mergeConfig (rng : GoRange) (cfg : ConversionConfig)
    : ConversionConfig :=
  withMaps cfg
    (mergeDefaults rng conversionConfig_TypeMap (TypeMap cfg))
    (mergeDefaults rng conversionConfig_DomainTypeMap (DomainTypeMap cfg))
    (mergeImports conversionConfig_ImportPackagePaths
       (ImportPackagePaths cfg)).

Definition dialectMessage : string :=
  "configuration error: DatabaseDialect must be '" +:+ POSTGRESQL
  +:+ "' or '" +:+ SQLITE +:+ "'".

(** The validation of [main]: the message of the first check that
    fails, or the configuration, with the default port filled in. *)
Definition validate (cfg : ConversionConfig) : string + ConversionConfig :=
  if decide (TrimSpace (OutPath cfg) = "")
  then inl "configuration error: OutPath is required"
  else if decide (DatabaseDialect cfg ≠ POSTGRESQL
                  ∧ DatabaseDialect cfg ≠ SQLITE)
  then inl dialectMessage
  else
    let cfg' :=
      if decide (DatabaseDialect cfg = POSTGRESQL ∧ DbPort cfg = 0)
      then withConnection cfg (DbHost cfg) 5432 (DbName cfg) (DbUser cfg)
             (DbPassword cfg)
      else cfg in
    if decide (DatabaseDialect cfg = POSTGRESQL
               ∧ TrimSpace (DbHost cfg') = "")
    then inl "configuration error: DbHost is required for postgresql dialect"
    else if decide (DatabaseDialect cfg = POSTGRESQL
                    ∧ TrimSpace (DbName cfg') = "")
    then inl "configuration error: DbName is required for postgresql dialect"
    else if decide (DatabaseDialect cfg = SQLITE
                    ∧ TrimSpace (Sqlitedbpath cfg') = "")
    then inl "configuration error: Sqlitedbpath is required for sqlite dialect"
    else inr cfg'.

(** The first lines of [postgresToGorm]: connection fields that are
    empty are read from the environment. [None] is a [log.Fatal]. *)
Definition resolveConnection (cfg : ConversionConfig)
    : option ConversionConfig :=
  let host :=
    if decide (DbHost cfg = "")
    then let h := Getenv "DB_HOST" in
         if decide (h = "") then "localhost" else h
    else DbHost cfg in
  port ←
    (if decide (DbPort cfg = 0)
     then let port := Getenv "DB_PORT" in
          if decide (port ≠ "") then Atoi port else Some 5432
     else Some (DbPort cfg));
  name ←
    (if decide (DbName cfg = "")
     then let n := Getenv "DB_NAME" in
          if decide (n = "") then None else Some n
     else Some (DbName cfg));
  let user :=
    if decide (DbUser cfg = "") then Getenv "DB_USER" else DbUser cfg in
  let password :=
    if decide (DbPassword cfg = "")
    then Getenv "DB_PASSWORD" else DbPassword cfg in
  Some (withConnection cfg host port name user password).

(** The argument of [utilities.DbDSN]. *)
Definition dsnConfig (cfg : ConversionConfig) : utilities.DbDSNConfig :=
  {| utilities.Server := DbHost cfg;
     utilities.Port := DbPort cfg;
     utilities.Name := DbName cfg;
     utilities.User := DbUser cfg;
     utilities.Password := DbPassword cfg;
     utilities.SSLMode := DbSSLMode cfg |}.

End Program.

(** ** [postgresToGorm] and [main] *)
Section Pipeline.
Context `{External}.

(** [cleanUp(outPath)] *)
Definition cleanUp (outPath : string) : M unit :=
  let* _ := emit (EvGlob (outPath +:+ "/*gen.go")) in
  let* genFiles := orFatal (Glob (outPath +:+ "/*gen.go")) in
  let* _ := forEach genFiles (λ genFile _, emit (EvRemove genFile)) () in
  let* _ := emit (EvGlob (outPath +:+ "/models/*gen.go")) in
  let* genFiles := orFatal (Glob (outPath +:+ "/models/*gen.go")) in
  forEach genFiles (λ genFile _, emit (EvRemove genFile)) ().

(** The configured list of names, or the one the catalog reports. *)
Definition enumerate (configured : option (list string)) (c : Catalog)
    : M (list string) :=
  match configured with
  | Some names => ret names
  | None =>
      let* _ := emit (EvScan c) in
      let* d := getDB in
      orFatal (Scan d c)
  end.

(** [if ef, ok := cfg.ExtraFields[name]; ok { ... }] *)
Definition extraFieldsOf (cfg : ConversionConfig) (name : string)
    (fields : list gen.Field) : option (list gen.Field) :=
  match ExtraFields cfg !! name with
  | Some efs => addExtraFields efs fields
  | None => Some fields
  end.

(** The body of the loop over [tables]. *)
Definition tableModel (rng : GoRange) (cfg : ConversionConfig)
    (tableName : string) (modelsMap : gmap string gen.Model)
    : M (gmap string gen.Model) :=
  let* d := getDB in
  let* _ := emit (EvGenerateModel tableName) in
  let model := GenerateModel (dtMaps rng cfg) d tableName in
  let* fields := orPanic (extraFieldsOf cfg tableName (gen.Fields model)) in
  let model :=
    gen.withFields model (applyJsonTagOverrides cfg tableName fields) in
  ret (<[tableName := model]> modelsMap).

Definition tmpViewName (viewName : string) : string := viewName +:+ "_temp".

(** The body of the loop over [materializedViews]. *)
Definition viewModel (rng : GoRange) (cfg : ConversionConfig)
    (viewName : string) (modelsMap : gmap string gen.Model)
    : M (gmap string gen.Model) :=
  let tmp := tmpViewName viewName in
  let* _ := query (DropViewIfExists tmp) in
  let* failed := query (CreateView tmp viewName) in
  if failed : bool then fatal
  else
    let* _ := defer (DropView tmp) in
    let modelName := SchemaName (NamingStrategy cfg) viewName in
    let* d := getDB in
    let* _ := emit (EvGenerateModelAs tmp modelName) in
    let model := GenerateModelAs (dtMaps rng cfg) d tmp modelName in
    let* fields := orPanic (extraFieldsOf cfg viewName (gen.Fields model)) in
    let model := gen.renamed (gen.withFields model fields) viewName in
    let model :=
      gen.withFields model
        (applyJsonTagOverrides cfg viewName (gen.Fields model)) in
    ret (<[viewName := model]> modelsMap).

(** The loop over [modelsMap] that fills the slice [models]. *)
Definition collectModels (rng : GoRange) (modelsMap : gmap string gen.Model)
    : list gen.Model :=
  foldl (λ models '(_, model), models ++ [model]) [] (range rng modelsMap).

(** The loop over [g.Data] that fills [modelStructNames]. *)
Definition collectNames (rng : GoRange) (data : gmap string gen.Model)
    : list string :=
  foldl (λ names '(modelName, _), names ++ [modelName]) [] (range rng data).

(** [generatePostgresDbInit(cfg, g)], for the output path and the models
    of [g]; the rendering of the template is not part of the model. *)
Definition generatePostgresDbInit (rng : GoRange) (cfg : ConversionConfig)
    (outPath : string) (data : gmap string gen.Model) : M unit :=
  let fullPackageName :=
    if decide (OutPackagePath cfg ≠ "")
    then OutPackagePath cfg else Base outPath in
  let packageName := Base fullPackageName in
  let modelStructNames := collectNames rng data in
  let outFile := Join outPath "db.go" in
  let* _ :=
    emit (EvWriteFile outFile
            {| PackageName := packageName;
               FullPackageName := fullPackageName;
               data_DbHost := DbHost cfg;
               data_DbPort := DbPort cfg;
               data_DbName := DbName cfg;
               data_DbUser := DbUser cfg;
               data_DbPassword := DbPassword cfg;
               data_DbSSLMode := DbSSLMode cfg;
               data_IncludeAutoMigrate := IncludeAutoMigrate cfg;
               ModelStructNames := modelStructNames |}) in
  if WriteFile outFile then fatal else ret ().

(** The two loops of the materialized-view snapshots and of the
    tables. *)
Definition assemble (rng : GoRange) (cfg : ConversionConfig)
    (tables materializedViews : list string) : M (gmap string gen.Model) :=
  let* modelsMap := forEach tables (tableModel rng cfg) ∅ in
  forEach materializedViews (viewModel rng cfg) modelsMap.

(** [postgresToGorm] from the connection on. *)
Definition generate (rng : GoRange) (cfg : ConversionConfig) : M unit :=
  let* _ := if CleanUp cfg then cleanUp (OutPath cfg) else ret () in
  let* tables := enumerate (Tables cfg) InformationSchemaTables in
  let* materializedViews :=
    enumerate (MaterializedViews cfg) PgMatviews in
  let* modelsMap := assemble rng cfg tables materializedViews in
  let models := collectModels rng modelsMap in
  let* _ := emit (EvApplyBasic models) in
  let* _ := emit EvExecute in
  if GenerateDbInit cfg
  then generatePostgresDbInit rng cfg (OutPath cfg) (ApplyBasic models)
  else ret ().

(** How the process ends after [generate]. *)
Definition finish (r : Res unit * St) : Run :=
  match r with
  | (Ok _, st) =>
      let st' := runDeferred st in
      {| trace := events st'; status := 0; final := Some (db st') |}
  | (Panic, st) =>
      let st' := runDeferred st in
      {| trace := events st'; status := 2; final := Some (db st') |}
  | (Fatal, st) =>
      {| trace := events st; status := 1; final := Some (db st) |}
  end.

(** [postgresToGorm(cfg)] *)
Definition postgresToGorm (rng : GoRange) (cfg : ConversionConfig) : Run :=
  match resolveConnection cfg with
  | None => {| trace := []; status := 1; final := None |}
  | Some cfg =>
      let dsn := DbDSN (dsnConfig cfg) in
      match Open dsn with
      | None => {| trace := [EvOpen dsn]; status := 1; final := None |}
      | Some d =>
          if Ping d
          then {| trace := [EvOpen dsn; EvPing]; status := 1;
                  final := Some d |}
          else finish (generate rng cfg
                         {| db := d; deferred := [];
                            events := [EvOpen dsn; EvPing] |})
      end
  end.

(** [main], from the decoded configuration on, for the program name
    [prog]. *)
Definition main (rng : GoRange) (prog : string) (cfg : ConversionConfig)
    : Run :=
  match validate (mergeConfig rng cfg) with
  | inl msg => usage prog 2 msg
  | inr cfg =>
      if decide (DatabaseDialect cfg = POSTGRESQL)
      then postgresToGorm rng cfg
      else if decide (DatabaseDialect cfg = SQLITE)
      then let '(t, s) := sqliteToGorm cfg in
           {| trace := t; status := s; final := None |}
      else usage prog 2
             ("unknown database dialect: " +:+ DatabaseDialect cfg
              +:+ " (expected '" +:+ POSTGRESQL +:+ "' or '" +:+ SQLITE
              +:+ "')")
  end.

End Pipeline.

(** ** A small environment to run the program in *)

(** Two iteration orders. *)
Definition listed : GoRange :=
  {| range := λ V m, map_to_list m;
     range_perm := λ V m, reflexivity (map_to_list m) |}.

Definition backwards : GoRange :=
  {| range := λ V m, reverse (map_to_list m);
     range_perm := λ V m, reverse_Permutation (map_to_list m) |}.

(** A database: the columns of its tables and materialized views, and
    the relation each of its plain views selects from. *)
Record Pg := {
  relations : gmap string (list (string * ColumnType));
  views : gmap string string;
}.

Definition pgQuery (d : Pg) (s : Stmt) : Pg * bool :=
  match s with
  | DropViewIfExists name =>
      ({| relations := relations d; views := delete name (views d) |}, false)
  | CreateView name source =>
      match relations d !! name, views d !! name, relations d !! source with
      | None, None, Some _ =>
          ({| relations := relations d;
              views := <[name := source]> (views d) |}, false)
      | _, _, _ => (d, true)
      end
  | DropView name =>
      match views d !! name with
      | Some _ =>
          ({| relations := relations d; views := delete name (views d) |},
           false)
      | None => (d, true)
      end
  end.

(** The columns of a table, or of the relation under a plain view. *)
Definition pgColumns (d : Pg) (name : string) : list (string * ColumnType) :=
  let source := default name (views d !! name) in
  default [] (relations d !! source).

Definition pgModel (dt : gmap string (ColumnType → string)) (d : Pg)
    (source name : string) : gen.Model :=
  {| gen.ModelStructName := name;
     gen.TableName := source;
     gen.FileName := source;
     gen.Fields :=
       (λ '(col, ct),
          {| gen.Name := col;
             gen.Type_ :=
               match dt !! DatabaseTypeName ct with
               | Some mapping => mapping ct
               | None => "string"
               end;
             gen.ColumnName := col;
             gen.Tag := {["json" := col]};
             gen.GORMTag := {["column" := [col]]};
             gen.Relation := None |}) <$> pgColumns d source |}.

(** The environment over a database [start] and the process environment
    [env]; names are kept as they are, the file system never fails, and
    the generator infers [string] by itself. *)
Definition smallWorld (env : string → string) (start : Pg) : External :=
  {| ToLowerCamel := λ s, s;
     SchemaName := λ _ s, s;
     Base := λ s, s;
     Join := λ dir file, dir +:+ "/" +:+ file;
     Glob := λ _, Some [];
     WriteFile := λ _, false;
     Getenv := env;
     DbDSN := λ c, "host=" +:+ utilities.Server c
                   +:+ " dbname=" +:+ utilities.Name c;
     DB := Pg;
     Open := λ _, Some start;
     Ping := λ _, false;
     Scan := λ d c,
       match c with
       | InformationSchemaTables => Some (map_to_list (relations d)).*1
       | PgMatviews => Some []
       end;
     Query := pgQuery;
     generatorDefault := λ _, "string";
     GenerateModel := λ dt d table, pgModel dt d table table;
     GenerateModelAs := pgModel;
     ApplyBasic := λ models,
       list_to_map ((λ m, (gen.ModelStructName m, m)) <$> models);
     sqliteToGorm := λ _, ([], 0) |}.

(** A configuration with nothing set but the dialect, the output path and
    the name and host of the database. *)
Definition minimalConfig : ConversionConfig :=
  {| DatabaseDialect := POSTGRESQL; OutPath := "./generated";
     OutPackagePath := ""; ImportPackagePaths := [];
     Tables := None; MaterializedViews := None;
     JsonTagOverridesByTable := ∅; ExtraFields := ∅;
     TypeMap := ∅; DomainTypeMap := ∅;
     NamingStrategy :=
       {| schema.TablePrefix := ""; schema.SingularTable := false;
          schema.NoLowerCase := false; schema.IdentifierMaxLength := 0 |};
     CleanUp := false; GenerateDbInit := false;
     IncludeAutoMigrate := false; DbHost := "localhost"; DbPort := 0;
     DbName := "my_database"; DbUser := ""; DbPassword := "";
     DbSSLMode := false; Sqlitedbpath := "" |}.

Definition noEnv : string → string := λ _, "".

Definition emptyPg : Pg := {| relations := ∅; views := ∅ |}.

(** The specification of the commented-out example in the source, with a
    given type. *)
Definition attachments (type : string) (hasMany pointer : bool) : ExtraField :=
  {| StructPropName := "Attachments"; StructPropType := type;
     FkStructPropName := "TicketID"; RefStructPropName := "TicketID";
     HasMany := hasMany; Pointer := pointer |}.

(** A column of a type the built-in mapping does not know, and a
    configuration that maps this type. *)
Definition citextColumn : ColumnType :=
  {| DatabaseTypeName := "citext"; ColumnType_ := Some "citext" |}.

Definition citextConfig : ConversionConfig :=
  withMaps minimalConfig {["citext" := "types.CIText"]} ∅ [].



Definition textColumn (name : string) : string * ColumnType :=
  (name, {| DatabaseTypeName := "text"; ColumnType_ := Some "text" |}).

(** A database with the tables [a] and [b]. *)
Definition twoTables : Pg :=
  {| relations := {["a" := [textColumn "id"]; "b" := [textColumn "id"]]};
     views := ∅ |}.

(** A database with the materialized view [mv1], and no [mv2]. *)
Definition oneMatview : Pg :=
  {| relations := {["mv1" := [textColumn "col_x"; textColumn "col_y"]]};
     views := ∅ |}.

(** A configuration that asks for given materialized views and no
    table. *)
Definition viewsConfig (materializedViews : list string) : ConversionConfig :=
  {| DatabaseDialect := POSTGRESQL; OutPath := "./generated";
     OutPackagePath := ""; ImportPackagePaths := [];
     Tables := Some []; MaterializedViews := Some materializedViews;
     JsonTagOverridesByTable := {["mv1" := {["col_x" := "-"]}]};
     ExtraFields := ∅; TypeMap := ∅; DomainTypeMap := ∅;
     NamingStrategy := NamingStrategy minimalConfig;
     CleanUp := false; GenerateDbInit := false;
     IncludeAutoMigrate := false; DbHost := "localhost"; DbPort := 5432;
     DbName := "my_database"; DbUser := ""; DbPassword := "";
     DbSSLMode := false; Sqlitedbpath := "" |}.

(** A configuration that also writes the connection-initialization
    file. *)
Definition dbInitConfig : ConversionConfig :=
  {| DatabaseDialect := POSTGRESQL; OutPath := "./generated";
     OutPackagePath := ""; ImportPackagePaths := [];
     Tables := None; MaterializedViews := None;
     JsonTagOverridesByTable := ∅; ExtraFields := ∅;
     TypeMap := ∅; DomainTypeMap := ∅;
     NamingStrategy := NamingStrategy minimalConfig;
     CleanUp := true; GenerateDbInit := true;
     IncludeAutoMigrate := true; DbHost := "localhost"; DbPort := 0;
     DbName := "my_database"; DbUser := ""; DbPassword := "";
     DbSSLMode := false; Sqlitedbpath := "" |}.

(** A configuration without host, in an environment that names one. *)
Definition hostFromEnv : string → string :=
  λ name, if decide (name = "DB_HOST") then "db.internal" else "".

Definition noHostConfig : ConversionConfig :=
  withConnection minimalConfig "" 0 "my_database" "" "".

(** A step only adds events to those of the state it starts from. *)
Definition grows `{External} {A : Type} (m : M A) : Prop :=
  ∀ st, ∃ new, events (m st).2 = events st ++ new.

(** A configuration whose output path is blank. *)
Definition noOutPathConfig : ConversionConfig :=
  {| DatabaseDialect := SQLITE; OutPath := "  ";
     OutPackagePath := ""; ImportPackagePaths := [];
     Tables := None; MaterializedViews := None;
     JsonTagOverridesByTable := ∅; ExtraFields := ∅;
     TypeMap := ∅; DomainTypeMap := ∅;
     NamingStrategy := NamingStrategy minimalConfig;
     CleanUp := false; GenerateDbInit := false;
     IncludeAutoMigrate := false; DbHost := ""; DbPort := 0;
     DbName := ""; DbUser := ""; DbPassword := "";
     DbSSLMode := false; Sqlitedbpath := "./schema.db" |}.

(** A configuration with a user and a password of its own. *)
Definition fullConfig : ConversionConfig :=
  withConnection minimalConfig "db.example" 6543 "my_database" "gorm" "secret".

(** What the validation of [main] looks for: a blank output path, a
    dialect that is neither of the two, or a blank required field of the
    dialect. *)
Definition incomplete (cfg : ConversionConfig) : Prop :=
  TrimSpace (OutPath cfg) = ""
  ∨ (DatabaseDialect cfg ≠ POSTGRESQL ∧ DatabaseDialect cfg ≠ SQLITE)
  ∨ (DatabaseDialect cfg = POSTGRESQL
     ∧ (TrimSpace (DbHost cfg) = "" ∨ TrimSpace (DbName cfg) = ""))
  ∨ (DatabaseDialect cfg = SQLITE ∧ TrimSpace (Sqlitedbpath cfg) = "").

(** The model stored for a table: the one reflected from the database
    [d], with the extra fields and the overrides of the table. *)
Definition tableModelOf `{External} (rng : GoRange) (cfg : ConversionConfig)
    (d : DB) (tableName : string) : option gen.Model :=
  let model := GenerateModel (dtMaps rng cfg) d tableName in
  (λ fields,
     gen.withFields model (applyJsonTagOverrides cfg tableName fields))
    <$> extraFieldsOf cfg tableName (gen.Fields model).

(** A step that leaves the database and the deferred statements alone. *)
Definition passive `{External} {A : Type} (m : M A) : Prop :=
  ∀ st, db (m st).2 = db st ∧ deferred (m st).2 = deferred st.


(** A step whose events all satisfy [P], and which keeps the deferred
    statements within [Q]. *)
Definition always `{External} {A : Type} (P : Event → Prop) (Q : Stmt → Prop)
    (m : M A) : Prop :=
  ∀ st, Forall Q (deferred st) →
        ∃ new, events (m st).2 = events st ++ new
               ∧ Forall P new ∧ Forall Q (deferred (m st).2).

(** A name is within a configured list of names, if there is one. *)
Definition listedIn (configured : option (list string)) (name : string) : Prop :=
  ∀ names, configured = Some names → name ∈ names.

(** The data [generatePostgresDbInit] hands to the template, for the
    models of the generator. *)
Definition dbInitData `{External} (rng : GoRange) (cfg : ConversionConfig)
    (data : gmap string gen.Model) : DbInitData :=
  let fullPackageName :=
    if decide (OutPackagePath cfg ≠ "")
    then OutPackagePath cfg else Base (OutPath cfg) in
  {| PackageName := Base fullPackageName;
     FullPackageName := fullPackageName;
     data_DbHost := DbHost cfg;
     data_DbPort := DbPort cfg;
     data_DbName := DbName cfg;
     data_DbUser := DbUser cfg;
     data_DbPassword := DbPassword cfg;
     data_DbSSLMode := DbSSLMode cfg;
     data_IncludeAutoMigrate := IncludeAutoMigrate cfg;
     ModelStructNames := collectNames rng data |}.

(** An environment that holds the password only. *)
Definition passwordEnv : string → string :=
  λ name, if decide (name = "DB_PASSWORD") then "secret" else "".

(** A state with more events. *)
Definition addEvents `{External} (st : St) (new : list Event) : St :=
  {| db := db st; deferred := deferred st; events := events st ++ new |}.

(** The assignments to [cfg.ExtraFields] and
    [cfg.JsonTagOverridesByTable]. *)
Definition withTableMaps (cfg : ConversionConfig)
    (extraFields : gmap string (list ExtraField))
    (overrides : gmap string (gmap string string)) : ConversionConfig :=
  {| DatabaseDialect := DatabaseDialect cfg; OutPath := OutPath cfg;
     OutPackagePath := OutPackagePath cfg;
     ImportPackagePaths := ImportPackagePaths cfg;
     Tables := Tables cfg; MaterializedViews := MaterializedViews cfg;
     JsonTagOverridesByTable := overrides;
     ExtraFields := extraFields; TypeMap := TypeMap cfg;
     DomainTypeMap := DomainTypeMap cfg; NamingStrategy := NamingStrategy cfg;
     CleanUp := CleanUp cfg; GenerateDbInit := GenerateDbInit cfg;
     IncludeAutoMigrate := IncludeAutoMigrate cfg; DbHost := DbHost cfg;
     DbPort := DbPort cfg; DbName := DbName cfg; DbUser := DbUser cfg;
     DbPassword := DbPassword cfg; DbSSLMode := DbSSLMode cfg;
     Sqlitedbpath := Sqlitedbpath cfg |}.

(** A database with the materialized views [mv1] and [mv2]. *)
Definition twoMatviews : Pg :=
  {| relations := {["mv1" := [textColumn "col_x"];
                    "mv2" := [textColumn "col_x"]]};
     views := ∅ |}.

(** The configuration of [mv1] with entries for a table that does not
    exist. *)
Definition futureConfig : ConversionConfig :=
  withTableMaps (viewsConfig ["mv1"])
    {["future_table" := [attachments "models.Attachment" true true]]}
    {["mv1" := {["col_x" := "-"]}; "future_table" := {["id" := "-"]}]}.

(** ** The first lines of [main]: the arguments and the configuration
    file *)

(** What the start of the program needs from outside: the three strings
    set at build time, the text of the sample configuration, and the file
    system. An error is given by its text. *)
Class Startup := {
  version : string;
  commit : string;
  date : string;
  sampleConfigTOML : string;
  (** [os.Stat(path)]: the error, if there is one *)
  Stat : string → option string;
  (** [toml.DecodeFile(path, &cfg)]: the error, or the configuration *)
  DecodeFile : string → string + ConversionConfig;
  (** [os.WriteFile(name, content, 0644)]: the error, if there is one *)
  WriteSample : string → string → option string;
}.

(** What the start of a run does: it writes to the standard output,
    writes the sample, looks at the configuration file, reads it, or does
    what [main] does from the configuration on. *)
Inductive StartEvent :=
| EvStdout (text : string)
| EvWriteSample (name : string)
| EvStat (path : string)
| EvDecode (path : string)
| Inner (e : Event).

(** The events and the exit status of a run from the configuration on,
    as part of a run from the start. *)
Definition inner `{External} (r : Run) : list StartEvent * Z :=
  (Inner <$> trace r, status r).

(** [main], from the arguments [args] of the process ([os.Args]) on.
    [None] is the panic of [os.Args[0]] in [usage] when the process has no
    argument at all, not even its name. *)
Definition start `{External} `{Startup} (rng : GoRange) (args : list string)
    : option (list StartEvent * Z) :=
  match args with
  | [arg0; arg1] =>
      let prog := Base arg0 in
      if decide (arg1 = "-version" ∨ arg1 = "--version")
      then Some ([EvStdout ("version: " +:+ version +:+ newline
                            +:+ "commit: " +:+ commit +:+ newline
                            +:+ "date: " +:+ date +:+ newline)], 0)
      else if decide (arg1 = "-generateConfigSample")
      then
        let out := "gormdb2struct-sample.toml" in
        match WriteSample out sampleConfigTOML with
        | Some err =>
            let '(t, s) :=
              inner (usage prog 2
                       ("failed to write sample config to " +:+ out
                        +:+ ": " +:+ err)) in
            Some (EvWriteSample out :: t, s)
        | None =>
            Some ([EvWriteSample out;
                   EvStdout ("Sample config written to " +:+ out
                             +:+ newline)], 0)
        end
      else
        let cfgPath := arg1 in
        match Stat cfgPath with
        | Some err =>
            let '(t, s) :=
              inner (usage prog 2
                       ("cannot access config file " +:+ cfgPath
                        +:+ ": " +:+ err)) in
            Some (EvStat cfgPath :: t, s)
        | None =>
            match DecodeFile cfgPath with
            | inl err =>
                let '(t, s) :=
                  inner (usage prog 2
                           ("failed to parse TOML config: " +:+ err)) in
                Some (EvStat cfgPath :: EvDecode cfgPath :: t, s)
            | inr cfg =>
                let '(t, s) := inner (main rng prog cfg) in
                Some (EvStat cfgPath :: EvDecode cfgPath :: t, s)
            end
        end
  | [] => None
  | arg0 :: _ =>
      Some (inner (usage (Base arg0) 2
                     "exactly one argument is required: path to a TOML config file or -generateConfigSample"))
  end.

(** A start in which every file is there and holds the configuration
    [cfg]. *)
Definition startWith (cfg : ConversionConfig) : Startup :=
  {| version := "dev"; commit := "none"; date := "unknown";
     sampleConfigTOML := "# gormdb2struct configuration";
     Stat := λ _, None;
     DecodeFile := λ _, inr cfg;
     WriteSample := λ _ _, None |}.

(** The events of the snapshot of one materialized view that goes
    through: the drop of a stale temporary view, with what came of it, the
    creation of the temporary view, and the reflection from it. *)
Definition snapshotEvents `{External} (cfg : ConversionConfig)
    (viewName : string) (dropFailed : bool) : list Event :=
  [EvQuery (DropViewIfExists (tmpViewName viewName)) dropFailed;
   EvQuery (CreateView (tmpViewName viewName) viewName) false;
   EvGenerateModelAs (tmpViewName viewName)
     (SchemaName (NamingStrategy cfg) viewName)].


(** * Properties *)

(** ** Go's string functions, on examples *)

Example LastIndex_qualified : LastIndex "models.Attachment" "." = 6.
Proof. reflexivity. Qed.

Example LastIndex_nested : LastIndex "a.b.c" "." = 3.
Proof. reflexivity. Qed.

Example LastIndex_absent : LastIndex "Attachment" "." = -1.
Proof. reflexivity. Qed.

Example LastIndex_empty_substr : LastIndex "abc" "" = 3.
Proof. reflexivity. Qed.

Example sliceFrom_qualified :
  sliceFrom "models.Attachment" 7 = Some "Attachment".
Proof. reflexivity. Qed.

Example sliceFrom_out_of_range : sliceFrom "abc" 4 = None.
Proof. reflexivity. Qed.

Example TrimSpace_ascii : TrimSpace "  ab c  " = "ab c".
Proof. vm_compute. reflexivity. Qed.

Example TrimSpace_blank : TrimSpace (bytes [9; 194; 160; 10]%nat) = "".
Proof. vm_compute. reflexivity. Qed.

Example TrimSpace_unicode :
  TrimSpace (bytes [226; 128; 131; 65; 227; 128; 128]%nat) = "A".
Proof. vm_compute. reflexivity. Qed.

Example Atoi_examples :
  Atoi <$> ["5432"; "-12"; "+7"; "+"; ""; "12a"; "9223372036854775807";
            "9223372036854775808"]
  = [Some 5432; Some (-12); Some 7; None; None; None;
     Some 9223372036854775807; None].
Proof. vm_compute. reflexivity. Qed.

Example sql_create :
  sql (CreateView (tmpViewName "mv1") "mv1")
  = "create view mv1_temp as select * from mv1".
Proof. reflexivity. Qed.

(** ** The last separator of a type name *)

Lemma HasPrefix_dot (s : string) :
  HasPrefix s "." =
    match s with
    | String c _ => Ascii.eqb c "."
    | EmptyString => false
    end.
Proof.
  destruct s as [|c s]; [done|]. simpl.
  by destruct (Ascii.eqb c "."), s.
Qed.

Lemma occurs_cons (c a : ascii) (s : string) :
  occurs c (String a s) ↔ a = c ∨ occurs c s.
Proof. done. Qed.

Lemma not_occurs_empty (c : ascii) : ¬ occurs c "".
Proof. intros []. Qed.

(** The scan finds nothing, or the offset of a separator with no separator
    after it. *)
Lemma lastIndexFrom_dot (s : string) (i found : Z) :
  (¬ occurs "." s ∧ lastIndexFrom s "." i found = found)
  ∨ (∃ pre base, s = pre +:+ "." +:+ base ∧ ¬ occurs "." base
                 ∧ lastIndexFrom s "." i found = i + len pre).
Proof.
  revert i found. induction s as [|c s IH]; intros i found.
  - left. split; [apply not_occurs_empty | done].
  - cbn [lastIndexFrom]. rewrite HasPrefix_dot.
    destruct (IH (i + 1) (if Ascii.eqb c "." then i else found))
      as [[Hno Hr]|(pre & base & -> & Hno & Hr)].
    + destruct (Ascii.eqb_spec c ".") as [->|Hc].
      * right. exists "", s. rewrite Hr. unfold len. simpl.
        split_and!; [done | done | lia].
      * left. split; [|done]. rewrite occurs_cons. intros [?|?]; done.
    + right. exists (String c pre), base. rewrite Hr. unfold len. simpl.
      split_and!; [done | done | lia].
Qed.

Lemma skip_app (pre : string) (c : ascii) (s : string) :
  skip (S (String.length pre)) (pre +:+ String c s) = s.
Proof. induction pre as [|a pre IH]; simpl; [by destruct s | done]. Qed.

Lemma string_length_app (s1 s2 : string) :
  String.length (s1 +:+ s2) = (String.length s1 + String.length s2)%nat.
Proof. induction s1 as [|c s1 IH]; simpl; [done | by rewrite IH]. Qed.

Lemma append_cons (c : ascii) (s t : string) :
  String c s +:+ t = String c (s +:+ t).
Proof. reflexivity. Qed.

Lemma append_empty_r (s : string) : s +:+ "" = s.
Proof. induction s as [|c s IH]; [done | by rewrite append_cons, IH]. Qed.

Lemma occurs_app_r (c : ascii) (s1 s2 : string) :
  occurs c s2 → occurs c (s1 +:+ s2).
Proof.
  intros Hc. induction s1 as [|a s1 IH]; [done|]. simpl.
  apply occurs_cons. by right.
Qed.

(** The base type name of [genRelationField]: the whole string when it has
    no separator, and what follows the last separator otherwise. The slice
    expression never panics. *)
Lemma baseType_spec (s : string) :
  ∃ base,
    (if decide (LastIndex s "." ≠ -1)
     then sliceFrom s (LastIndex s "." + 1) else Some s) = Some base
    ∧ ((¬ occurs "." s ∧ base = s)
       ∨ (∃ pre, s = pre +:+ "." +:+ base ∧ ¬ occurs "." base)).
Proof.
  unfold LastIndex.
  destruct (lastIndexFrom_dot s 0 (-1))
    as [[Hno ->]|(pre & base & -> & Hno & ->)].
  - exists s. rewrite decide_False by (intros ?; done). eauto.
  - exists base. unfold len. rewrite decide_True by lia.
    split; [|right; eauto].
    unfold sliceFrom, len. rewrite string_length_app. simpl.
    replace (0 + Z.of_nat (String.length pre) + 1)
      with (Z.of_nat (S (String.length pre))) by lia.
    rewrite Nat2Z.id.
    rewrite (proj2 (andb_true_iff _ _)) by (split; apply Z.leb_le; lia).
    f_equal. apply skip_app.
Qed.

Lemma trailing_separator (pre' base pre : string) :
  pre' +:+ String "." base = pre +:+ "." → base = "" ∨ occurs "." base.
Proof.
  revert pre. induction pre' as [|a p IH]; intros [|b pre]; simpl; intros Heq.
  - left. by injection Heq.
  - right. injection Heq as _ ->. apply occurs_app_r, occurs_cons. by left.
  - injection Heq as _ Heq. by destruct p.
  - injection Heq as _ Heq. eauto.
Qed.

(** ** Relation fields *)
Section RelationFields.
Context `{External}.

(** The field after [genRelationField], over the base type name. *)
Lemma genRelationField_result (ef : ExtraField) (fld : gen.Field) :
  ∃ base,
    ((¬ occurs "." (StructPropType ef) ∧ base = StructPropType ef)
     ∨ (∃ pre, StructPropType ef = pre +:+ "." +:+ base
               ∧ ¬ occurs "." base))
    ∧ genRelationField ef fld =
        Some {| gen.Name := StructPropName ef;
                gen.Type_ :=
                  (if HasMany ef then "[]" else "")
                  +:+ (if Pointer ef then "*" else "") +:+ base;
                gen.ColumnName := gen.ColumnName fld;
                gen.Tag := {["json" := ToLowerCamel (StructPropName ef)]};
                gen.GORMTag :=
                  <["references" := [RefStructPropName ef]]>
                    {["foreignKey" := [FkStructPropName ef]]};
                gen.Relation :=
                  Some (field.NewRelationWithType
                          (if HasMany ef then field.HasMany
                           else field.HasOne)
                          (StructPropName ef) (StructPropType ef)) |}.
Proof.
  destruct (baseType_spec (StructPropType ef)) as (base & Hbase & Hspec).
  exists base. split; [done|].
  unfold genRelationField. rewrite Hbase. simpl.
  by destruct (HasMany ef), (Pointer ef).
Qed.

Lemma addExtraFields_total (efs : list ExtraField) (fields : list gen.Field) :
  is_Some (addExtraFields efs fields).
Proof.
  revert fields. induction efs as [|ef efs IH]; intros fields; [by eexists|].
  simpl. destruct (genRelationField_result ef (gen.FieldNew "" ""))
    as (base & _ & ->). simpl. apply IH.
Qed.

(** C2. The type of a synthesized relation field is the part of the
    property type after its last separator (the whole of it when there is
    none), with [*] in front when [Pointer] is set and then [[]] in front
    when [HasMany] is set; the relation is one-to-many exactly when
    [HasMany] is set, one-to-one otherwise; and [models.Attachment] with
    both flags set gives [[]*Attachment]. *)
Theorem genRelationField_type :
  (∀ (ef : ExtraField) (fld : gen.Field), ∃ fld' base r,
      genRelationField ef fld = Some fld'
      ∧ ((¬ occurs "." (StructPropType ef) ∧ base = StructPropType ef)
         ∨ (∃ pre, StructPropType ef = pre +:+ "." +:+ base
                   ∧ ¬ occurs "." base))
      ∧ gen.Type_ fld' =
          (if HasMany ef then "[]" else "")
          +:+ (if Pointer ef then "*" else "") +:+ base
      ∧ gen.Relation fld' = Some r
      ∧ field.relationship r =
          (if HasMany ef then field.HasMany else field.HasOne)
      ∧ (field.relationship r = field.HasMany ↔ HasMany ef = true))
  ∧ (∀ fld : gen.Field,
       gen.Type_ <$> genRelationField
                       (attachments "models.Attachment" true true) fld
       = Some "[]*Attachment")
  ∧ (∀ fld : gen.Field,
       gen.Type_ <$> genRelationField (attachments "Attachment" false false)
                       fld
       = Some "Attachment").
Proof.
  split; [|split; intros fld; reflexivity].
  intros ef fld.
  destruct (genRelationField_result ef fld) as (base & Hbase & ->).
  eexists _, base, _. split; [done|]. simpl.
  split_and!; try done.
  destruct (HasMany ef); simpl; split; done.
Qed.

(** C8, as the code has it. Synthesis never stops the run: it returns a
    field for every specification. A property type without a separator,
    the empty one among them, is used as it is; of a property type that
    ends in the separator, nothing is left: the base type name is
    empty. *)
Theorem genRelationField_malformed :
  ∀ (ef : ExtraField) (fld : gen.Field), ∃ fld',
    genRelationField ef fld = Some fld'
    ∧ (¬ occurs "." (StructPropType ef) →
       gen.Type_ fld' =
         (if HasMany ef then "[]" else "")
         +:+ (if Pointer ef then "*" else "") +:+ StructPropType ef)
    ∧ (StructPropType ef = "" →
       gen.Type_ fld' =
         (if HasMany ef then "[]" else "")
         +:+ (if Pointer ef then "*" else ""))
    ∧ (∀ pre, StructPropType ef = pre +:+ "." →
       gen.Type_ fld' =
         (if HasMany ef then "[]" else "")
         +:+ (if Pointer ef then "*" else ""))
    ∧ (∀ efs fields, is_Some (addExtraFields efs fields)).
Proof.
  intros ef fld.
  destruct (genRelationField_result ef fld) as (base & Hbase & ->).
  eexists. split; [done|]. simpl.
  assert (Hempty : ∀ a b : string, a +:+ b +:+ "" = a +:+ b).
  { intros a b. by rewrite append_empty_r. }
  split_and!.
  - intros Hno. destruct Hbase as [[_ ->]|(pre & Heq & _)]; [done|].
    destruct Hno. rewrite Heq. apply occurs_app_r, occurs_cons. by left.
  - intros Heq. destruct Hbase as [[_ ->]|(pre & Heq' & _)].
    + by rewrite Heq, Hempty.
    + rewrite Heq in Heq'. by destruct pre.
  - intros pre Heq. destruct Hbase as [[Hno _]|(pre' & Heq' & Hno)].
    + destruct Hno. rewrite Heq. apply occurs_app_r, occurs_cons. by left.
    + rewrite Heq in Heq'. symmetry in Heq'.
      apply trailing_separator in Heq' as [->|?]; [|done].
      by rewrite Hempty.
  - apply addExtraFields_total.
Qed.

End RelationFields.

(** C8, as the claim has it, fails: of [models.], which has no local
    segment after its last separator, the code keeps the empty string and
    not the full string. *)
Lemma genRelationField_trailing_separator :
  gen.Type_ <$> @genRelationField (smallWorld noEnv emptyPg)
                  (attachments "models." false false) (gen.FieldNew "" "")
  = Some ""
  ∧ gen.Type_ <$> @genRelationField (smallWorld noEnv emptyPg)
                    (attachments "models." false false) (gen.FieldNew "" "")
    ≠ Some (StructPropType (attachments "models." false false)).
Proof. split; [reflexivity | discriminate]. Qed.

(** ** Tag overrides *)
Section TagOverrides.
Context `{External}.


(** The fields of the model stored for a table are the reflected fields
    and the synthesized ones, under the overrides of the table. *)
Lemma tableModel_fields (rng : GoRange) (cfg : ConversionConfig)
    (tableName : string) (modelsMap : gmap string gen.Model) (st : St) :
  ∃ fields st',
    extraFieldsOf cfg tableName
      (gen.Fields (GenerateModel (dtMaps rng cfg) (db st) tableName))
      = Some fields
    ∧ tableModel rng cfg tableName modelsMap st =
        (Ok (<[tableName :=
                 gen.withFields
                   (GenerateModel (dtMaps rng cfg) (db st) tableName)
                   (applyJsonTagOverrides cfg tableName fields)]>
               modelsMap), st')
    ∧ db st' = db st
    ∧ deferred st' = deferred st
    ∧ events st' = events st ++ [EvGenerateModel tableName].
Proof.
  unfold tableModel, bind, getDB, emit, orPanic, ret. simpl.
  assert (Hsome : is_Some (extraFieldsOf cfg tableName
    (gen.Fields (GenerateModel (dtMaps rng cfg) (db st) tableName)))).
  { unfold extraFieldsOf. destruct (ExtraFields cfg !! tableName);
      [apply addExtraFields_total | by eexists]. }
  destruct Hsome as [fields Hfields]. rewrite Hfields.
  by eexists _, _.
Qed.

Lemma extraFieldsOf_total (cfg : ConversionConfig) (name : string)
    (fields : list gen.Field) :
  is_Some (extraFieldsOf cfg name fields).
Proof.
  unfold extraFieldsOf. destruct (ExtraFields cfg !! name);
    [apply addExtraFields_total | by eexists].
Qed.

(** One materialized view: after the two statements, the run is over if
    the creation failed; otherwise the removal of the temporary view is
    deferred and the model is reflected from the temporary view and
    stored under the name of the materialized view. *)
Lemma viewModel_result (rng : GoRange) (cfg : ConversionConfig)
    (viewName : string) (modelsMap : gmap string gen.Model) (st : St) :
  let tmp := tmpViewName viewName in
  let r1 := Query (db st) (DropViewIfExists tmp) in
  let r2 := Query r1.1 (CreateView tmp viewName) in
  let modelName := SchemaName (NamingStrategy cfg) viewName in
  let model := GenerateModelAs (dtMaps rng cfg) r2.1 tmp modelName in
  let evs := events st ++ [EvQuery (DropViewIfExists tmp) r1.2;
                           EvQuery (CreateView tmp viewName) r2.2] in
  if r2.2
  then viewModel rng cfg viewName modelsMap st =
         (Fatal, {| db := r2.1; deferred := deferred st; events := evs |})
  else ∃ fields,
      extraFieldsOf cfg viewName (gen.Fields model) = Some fields
      ∧ viewModel rng cfg viewName modelsMap st =
          (Ok (<[viewName :=
                   gen.withFields
                     (gen.renamed (gen.withFields model fields) viewName)
                     (applyJsonTagOverrides cfg viewName fields)]>
                 modelsMap),
           {| db := r2.1; deferred := DropView tmp :: deferred st;
              events := evs ++ [EvGenerateModelAs tmp modelName] |}).
Proof.
  intros tmp r1 r2 modelName model evs.
  unfold viewModel, bind, query, fatal, defer, getDB, emit, orPanic, ret.
  simpl. fold tmp. fold r1. destruct r1 as [d1 f1] eqn:Hr1. simpl.
  simpl in r2. fold r2. subst evs model.
  destruct r2 as [d2 f2] eqn:Hr2. simpl.
  destruct f2; simpl.
  - by rewrite <- app_assoc.
  - fold modelName.
    destruct (extraFieldsOf_total cfg viewName
      (gen.Fields (GenerateModelAs (dtMaps rng cfg) d2 tmp modelName)))
      as [fields Hfields].
    exists fields. rewrite Hfields. split; [done|].
    by rewrite <- !app_assoc.
Qed.



End TagOverrides.


Example jsonTagOverrides_mv1_tags :
  omap (λ e, match e with
             | EvApplyBasic models =>
                 Some ((λ m, (λ f, (gen.ColumnName f, gen.Tag f !! "json"))
                               <$> gen.Fields m) <$> models)
             | _ => None
             end)
    (trace (@main (smallWorld noEnv oneMatview) listed "gormdb2struct"
              (viewsConfig ["mv1"])))
  = [[[("col_x", Some "-"); ("col_y", Some "col_y")]]].
Proof. vm_compute. reflexivity. Qed.

(** ** Loops over Go maps *)

Lemma range_NoDup (rng : GoRange) {V : Type} (m : gmap string V) :
  NoDup (range rng m).*1.
Proof. rewrite (range_perm rng V m). apply NoDup_fst_map_to_list. Qed.

Lemma range_to_map (rng : GoRange) {V : Type} (m : gmap string V) :
  list_to_map (range rng m) = m.
Proof.
  rewrite <- (list_to_map_to_list m) at 2.
  apply list_to_map_proper; [apply range_NoDup | apply range_perm].
Qed.

(** The merge loop, over any list of entries: the entries of the
    configuration stay, and the first entry of the list under each other
    key is added. *)
Lemma merge_loop (l : list (string * string)) (m : gmap string string) :
  foldl (λ m '(k, v),
           match m !! k with
           | Some _ => m
           | None => <[k := v]> m
           end) m l
  = m ∪ list_to_map l.
Proof.
  revert m. induction l as [|[k v] l IH]; intros m; simpl.
  - by rewrite (right_id_L ∅ (∪)).
  - rewrite IH. apply map_eq. intros i.
    destruct (m !! k) as [w|] eqn:Hk.
    + rewrite !lookup_union. destruct (decide (k = i)) as [->|Hne].
      * rewrite Hk, lookup_insert_eq. by destruct (list_to_map l !! i).
      * by rewrite lookup_insert_ne.
    + rewrite !lookup_union. destruct (decide (k = i)) as [->|Hne].
      * rewrite Hk, !lookup_insert_eq. by destruct (list_to_map l !! i).
      * by rewrite !lookup_insert_ne.
Qed.

Lemma mergeDefaults_union (rng : GoRange) (defaults cfgMap : gmap string string) :
  mergeDefaults rng defaults cfgMap = cfgMap ∪ defaults.
Proof. unfold mergeDefaults. by rewrite merge_loop, range_to_map. Qed.

(** The loop that installs the hooks, over a list of entries with
    distinct keys. *)
Lemma hook_loop {A B : Type} (g : A → B) (l : list (string * A))
    (m : gmap string B) :
  NoDup l.*1 →
  foldl (λ dt '(k, v), <[k := g v]> dt) m l = (g <$> list_to_map l) ∪ m.
Proof.
  revert m. induction l as [|[k v] l IH]; intros m Hnd; simpl.
  - by rewrite fmap_empty, (left_id_L ∅ (∪)).
  - apply NoDup_cons in Hnd as [Hk Hnd]. rewrite IH by done.
    apply map_eq. intros i. rewrite !lookup_union, !lookup_fmap.
    destruct (decide (k = i)) as [->|Hne].
    + rewrite !lookup_insert_eq.
      rewrite (not_elem_of_list_to_map_1 l i) by done.
      by destruct (m !! i).
    + by rewrite !lookup_insert_ne.
Qed.

Section TypeResolution.
Context `{External}.

Lemma dtMaps_fmap (rng : GoRange) (cfg : ConversionConfig) :
  dtMaps rng cfg = dataTypeHook cfg <$> pgtypes.PgTypeMap.
Proof.
  unfold dtMaps. rewrite (hook_loop (dataTypeHook cfg)) by apply range_NoDup.
  by rewrite range_to_map, (right_id_L ∅ (∪)).
Qed.

Lemma resolvedType_hook (rng : GoRange) (cfg : ConversionConfig)
    (ct : ColumnType) :
  resolvedType rng cfg ct =
    match pgtypes.PgTypeMap !! DatabaseTypeName ct with
    | Some def => dataTypeHook cfg def ct
    | None => generatorDefault ct
    end.
Proof.
  unfold resolvedType, GetDataType. rewrite dtMaps_fmap, lookup_fmap.
  by destruct (pgtypes.PgTypeMap !! DatabaseTypeName ct).
Qed.

(** C1, as the code has it. A hook is installed for the database types
    of the built-in mapping only. For a column of such a type, the
    resolved type is the [DomainTypeMap] value of its column type if
    there is one, else the [TypeMap] value of its column type if there is
    one, else the built-in value of its database type, which is also the
    result when the column reports no column type. For a column of any
    other database type neither map is read: the generator's own
    inference applies. *)
Theorem resolvedType_layers (rng : GoRange) (cfg : ConversionConfig)
    (ct : ColumnType) :
  (∀ def colType domain,
      pgtypes.PgTypeMap !! DatabaseTypeName ct = Some def →
      ColumnType_ ct = Some colType →
      DomainTypeMap cfg !! colType = Some domain →
      resolvedType rng cfg ct = domain)
  ∧ (∀ def colType pt,
      pgtypes.PgTypeMap !! DatabaseTypeName ct = Some def →
      ColumnType_ ct = Some colType →
      DomainTypeMap cfg !! colType = None →
      TypeMap cfg !! colType = Some pt →
      resolvedType rng cfg ct = pt)
  ∧ (∀ def colType,
      pgtypes.PgTypeMap !! DatabaseTypeName ct = Some def →
      ColumnType_ ct = Some colType →
      DomainTypeMap cfg !! colType = None →
      TypeMap cfg !! colType = None →
      resolvedType rng cfg ct = def)
  ∧ (∀ def,
      pgtypes.PgTypeMap !! DatabaseTypeName ct = Some def →
      ColumnType_ ct = None →
      resolvedType rng cfg ct = def)
  ∧ (pgtypes.PgTypeMap !! DatabaseTypeName ct = None →
     resolvedType rng cfg ct = generatorDefault ct).
Proof.
  rewrite resolvedType_hook. unfold dataTypeHook.
  split_and!.
  - intros def colType domain -> -> ->. reflexivity.
  - intros def colType pt -> -> -> ->. reflexivity.
  - intros def colType -> -> -> ->. reflexivity.
  - intros def -> ->. reflexivity.
  - intros ->. reflexivity.
Qed.

End TypeResolution.

(** C1, as the claim has it, fails: [citext] is a key of [TypeMap] and of
    no built-in entry, and a [citext] column gets the type the generator
    infers, not the [TypeMap] value. *)
Lemma resolvedType_ignores_TypeMap :
  TypeMap (mergeConfig listed citextConfig) !! "citext" = Some "types.CIText"
  ∧ DomainTypeMap (mergeConfig listed citextConfig) !! "citext" = None
  ∧ @resolvedType (smallWorld noEnv emptyPg) listed
      (mergeConfig listed citextConfig) citextColumn = "string"
  ∧ @resolvedType (smallWorld noEnv emptyPg) listed
      (mergeConfig listed citextConfig) citextColumn ≠ "types.CIText".
Proof. vm_compute. split_and!; [done | done | done | discriminate]. Qed.

(** The layers at work on the built-in defaults: [jsonb] is in [TypeMap]
    after the merge, [numeric] and [uuid[]] only in the built-in
    mapping. *)
Example resolvedType_defaults :
  (λ name, @resolvedType (smallWorld noEnv emptyPg) backwards
             (mergeConfig backwards minimalConfig)
             {| DatabaseTypeName := name; ColumnType_ := Some name |})
    <$> ["jsonb"; "numeric"; "uuid[]"; "hstore"]
  = ["datatypes.JSONMap"; "string"; "pgtypes.UUIDArray"; "string"].
Proof. vm_compute. reflexivity. Qed.

(** ** The merge of the built-in defaults *)

Lemma mergeImports_idempotent (defaults paths : list string) :
  mergeImports defaults (mergeImports defaults paths)
  = mergeImports defaults paths.
Proof.
  assert (Hgrow : ∀ (e : gset string) l ps,
    let r := foldl (λ ps p, if decide (p ∈ e) then ps else ps ++ [p]) ps l in
    (∀ p, p ∈ ps → p ∈ r) ∧ (∀ p, p ∈ l → p ∈ e ∨ p ∈ r)).
  { intros e l. induction l as [|q l IHl]; intros ps; simpl.
    - split; [done | intros p Hp; by apply elem_of_nil in Hp].
    - destruct (IHl (if decide (q ∈ e) then ps else ps ++ [q])) as [IH1 IH2].
      split.
      + intros p Hp. apply IH1. destruct (decide (q ∈ e)); [done|].
        apply elem_of_app. by left.
      + intros p [->|Hp]%elem_of_cons; [|by apply IH2].
        destruct (decide (q ∈ e)) as [Hq|Hq]; [by left|].
        right. apply IH1, elem_of_app. right. apply list_elem_of_here. }
  assert (Hkeep : ∀ (e : gset string) l ps,
    (∀ p, p ∈ l → p ∈ e) →
    foldl (λ ps p, if decide (p ∈ e) then ps else ps ++ [p]) ps l = ps).
  { intros e l. induction l as [|q l IHl]; intros ps He; simpl; [done|].
    rewrite decide_True by apply He, list_elem_of_here.
    apply IHl. intros p Hp. by apply He, list_elem_of_further. }
  unfold mergeImports at 1. apply Hkeep. intros p Hp.
  apply elem_of_list_to_set. unfold mergeImports.
  destruct (Hgrow (list_to_set paths) defaults paths) as [H1 H2].
  destruct (H2 p Hp) as [Hin|Hin]; [|done].
  apply H1. by apply elem_of_list_to_set in Hin.
Qed.

Section Merge.
Context `{External}.

(** C3. The merge stores a built-in value only under a key the
    configuration does not have: an entry of the configuration keeps its
    value, and any other key gets the built-in value, if there is one.
    Merging again, in any iteration order, changes nothing; so it is for
    [TypeMap], for [DomainTypeMap] and for the whole configuration. *)
Theorem mergeDefaults_user_wins (rng rng' : GoRange)
    (defaults cfgMap : gmap string string) :
  (∀ k v, cfgMap !! k = Some v →
          mergeDefaults rng defaults cfgMap !! k = Some v)
  ∧ (∀ k, cfgMap !! k = None →
          mergeDefaults rng defaults cfgMap !! k = defaults !! k)
  ∧ mergeDefaults rng' defaults (mergeDefaults rng defaults cfgMap)
    = mergeDefaults rng defaults cfgMap
  ∧ (∀ cfg,
       TypeMap (mergeConfig rng cfg)
       = mergeDefaults rng conversionConfig_TypeMap (TypeMap cfg)
       ∧ DomainTypeMap (mergeConfig rng cfg)
         = mergeDefaults rng conversionConfig_DomainTypeMap
             (DomainTypeMap cfg)
       ∧ mergeConfig rng' (mergeConfig rng cfg) = mergeConfig rng cfg).
Proof.
  rewrite !mergeDefaults_union. split_and!.
  - intros k v Hk. by rewrite lookup_union, Hk; destruct (defaults !! k).
  - intros k Hk. by rewrite lookup_union, Hk; destruct (defaults !! k).
  - by rewrite <- (assoc_L (∪)), (idemp_L (∪)).
  - intros cfg. split_and!; [done | done |].
    unfold mergeConfig, withMaps. simpl.
    rewrite !mergeDefaults_union, mergeImports_idempotent.
    by rewrite <- !(assoc_L (∪)), !(idemp_L (∪)).
Qed.

End Merge.

(** The user wins on [jsonb]; [uuid] comes from the defaults. *)
Example mergeDefaults_jsonb :
  map_to_list (mergeDefaults backwards conversionConfig_TypeMap
                 {["jsonb" := "json.RawMessage"]})
  ≡ₚ [("jsonb", "json.RawMessage"); ("uuid", "datatypes.UUID")].
Proof. vm_compute. by repeat constructor. Qed.

(** ** Materialized-view snapshots *)
Section Snapshots.
Context `{External}.

(** The deferred statements are all sent, whatever comes of them. *)
Lemma runDeferred_events (st : St) :
  ∃ flags,
    length flags = length (deferred st)
    ∧ events (runDeferred st)
      = events st ++ zip_with EvQuery (deferred st) flags.
Proof.
  unfold runDeferred.
  assert (Hloop : ∀ l st0, ∃ flags,
    length flags = length l
    ∧ events (foldl (λ st s, (query s st).2) st0 l)
      = events st0 ++ zip_with EvQuery l flags).
  { induction l as [|s l IH]; intros st0.
    - exists []. by rewrite app_nil_r.
    - simpl. destruct (IH (query s st0).2) as (flags & Hlen & ->).
      unfold query. destruct (Query (db st0) s) as [d failed]. simpl.
      exists (failed :: flags). simpl. by rewrite Hlen, <- app_assoc. }
  apply (Hloop (deferred st)
           {| db := db st; deferred := []; events := events st |}).
Qed.

(** The loop over the materialized views never panics, and it ends the
    run exactly when the creation of a temporary view has failed. *)
Lemma viewLoop_fatal (rng : GoRange) (cfg : ConversionConfig)
    (materializedViews : list string) (modelsMap : gmap string gen.Model)
    (st : St) :
  ∃ r st' new,
    forEach materializedViews (viewModel rng cfg) modelsMap st = (r, st')
    ∧ events st' = events st ++ new
    ∧ r ≠ Panic
    ∧ (r = Fatal ↔ ∃ name source, EvQuery (CreateView name source) true ∈ new).
Proof.
  revert modelsMap st.
  induction materializedViews as [|v vs IH]; intros modelsMap st.
  - exists (Ok modelsMap), st, []. rewrite app_nil_r.
    split_and!; [done | done | done |]. split; [done|].
    intros (? & ? & ?%elem_of_nil). done.
  - cbn [forEach]. unfold bind at 1.
    pose proof (viewModel_result rng cfg v modelsMap st) as Hv.
    cbv zeta in Hv.
    destruct (Query (db st) (DropViewIfExists (tmpViewName v)))
      as [d1 f1]. cbn [fst snd] in Hv.
    destruct (Query d1 (CreateView (tmpViewName v) v)) as [d2 f2].
    cbn [fst snd] in Hv. destruct f2.
    + rewrite Hv. eexists Fatal, _, _. split_and!; [done | done | done |].
      split; [|done]. intros _. eexists _, _.
      apply list_elem_of_further, list_elem_of_here.
    + destruct Hv as (fields & _ & ->).
      edestruct IH as (r & st' & new & -> & Hev & Hpanic & Hfatal).
      eexists r, st', _. split_and!; [done | | done |].
      * rewrite Hev. cbn [events]. rewrite <- !app_assoc. done.
      * rewrite Hfatal. split; intros (n & src & Hin); exists n, src.
        -- rewrite !elem_of_app. by right; right.
        -- cbn in Hin.
           rewrite !elem_of_cons in Hin.
           destruct Hin as [?|[?|[?|?]]]; done.
Qed.

(** C6. At a materialized view, a failed creation of the temporary view
    ends the run, and a creation that succeeds lets it go on, whatever
    the drop-if-exists before it returned; the loop over the views ends
    the run exactly when a creation has failed; and at the end of a run
    every deferred drop is sent and the run returns with status 0,
    whatever the drops returned. *)
Theorem snapshot_failure_modes (rng : GoRange) (cfg : ConversionConfig) :
  (∀ viewName modelsMap st,
      let r1 := Query (db st) (DropViewIfExists (tmpViewName viewName)) in
      let r2 := Query r1.1 (CreateView (tmpViewName viewName) viewName) in
      (r2.2 = true →
       ∃ st', viewModel rng cfg viewName modelsMap st = (Fatal, st'))
      ∧ (r2.2 = false →
         ∃ m st', viewModel rng cfg viewName modelsMap st = (Ok m, st')))
  ∧ (∀ materializedViews modelsMap st, ∃ r st' new,
        forEach materializedViews (viewModel rng cfg) modelsMap st
          = (r, st')
        ∧ events st' = events st ++ new
        ∧ r ≠ Panic
        ∧ (r = Fatal
           ↔ ∃ name source, EvQuery (CreateView name source) true ∈ new))
  ∧ (∀ st, ∃ flags,
        length flags = length (deferred st)
        ∧ trace (finish (Ok (), st))
          = events st ++ zip_with EvQuery (deferred st) flags
        ∧ status (finish (Ok (), st)) = 0).
Proof.
  split_and!.
  - intros viewName modelsMap st r1 r2.
    pose proof (viewModel_result rng cfg viewName modelsMap st) as Hv.
    cbv zeta in Hv. fold r1 in Hv. fold r2 in Hv.
    split; intros Hr2; rewrite Hr2 in Hv.
    + eauto.
    + destruct Hv as (fields & _ & Hv). eauto.
  - apply viewLoop_fatal.
  - intros st. destruct (runDeferred_events st) as (flags & Hlen & Hev).
    exists flags. by split_and!.
Qed.

End Snapshots.

(** C5 on a run that a later step ends: [mv1] is snapshot, then the
    temporary view of [mv2] cannot be created; the run ends with status 1,
    the deferred drop of [mv1_temp] is never sent, and [mv1_temp] is still
    in the database. *)
Lemma temp_view_left_behind :
  status (@main (smallWorld noEnv oneMatview) listed "gormdb2struct"
            (viewsConfig ["mv1"; "mv2"])) = 1
  ∧ trace (@main (smallWorld noEnv oneMatview) listed "gormdb2struct"
             (viewsConfig ["mv1"; "mv2"]))
    = [EvOpen "host=localhost dbname=my_database"; EvPing;
       EvQuery (DropViewIfExists "mv1_temp") false;
       EvQuery (CreateView "mv1_temp" "mv1") false;
       EvGenerateModelAs "mv1_temp" "mv1";
       EvQuery (DropViewIfExists "mv2_temp") false;
       EvQuery (CreateView "mv2_temp" "mv2") true]
  ∧ views <$> final (@main (smallWorld noEnv oneMatview) listed "gormdb2struct"
                       (viewsConfig ["mv1"; "mv2"]))
    = Some {["mv1_temp" := "mv1"]}.
Proof. vm_compute. done. Qed.

(** On a run that completes, the temporary view is created before the
    reflection and dropped at the end. *)
Example temp_view_dropped :
  status (@main (smallWorld noEnv oneMatview) listed "gormdb2struct"
            (viewsConfig ["mv1"])) = 0
  ∧ omap (λ e, match e with
               | EvQuery s failed => Some (sql s, failed)
               | EvGenerateModelAs source _ => Some ("reflect " +:+ source, false)
               | _ => None
               end)
      (trace (@main (smallWorld noEnv oneMatview) listed "gormdb2struct"
                (viewsConfig ["mv1"])))
    = [("drop view if exists mv1_temp", false);
       ("create view mv1_temp as select * from mv1", false);
       ("reflect mv1_temp", false);
       ("drop view mv1_temp", false)]
  ∧ views <$> final (@main (smallWorld noEnv oneMatview) listed "gormdb2struct"
                       (viewsConfig ["mv1"]))
    = Some ∅.
Proof. vm_compute. done. Qed.

(** ** The order of the output *)
Section OutputOrder.
Context `{External}.




End OutputOrder.


(** ** The trace of a run *)
Section Traces.
Context `{External}.

Lemma grows_ret {A} (a : A) : grows (ret a).
Proof. intros st. exists []. by rewrite app_nil_r. Qed.

Lemma grows_fatal {A} : grows (@fatal _ A).
Proof. intros st. exists []. by rewrite app_nil_r. Qed.

Lemma grows_orPanic {A} (o : option A) : grows (orPanic o).
Proof. intros st. exists []. rewrite app_nil_r. by destruct o. Qed.

Lemma grows_orFatal {A} (o : option A) : grows (orFatal o).
Proof. intros st. exists []. rewrite app_nil_r. by destruct o. Qed.

Lemma grows_getDB : grows getDB.
Proof. intros st. exists []. by rewrite app_nil_r. Qed.

Lemma grows_emit (e : Event) : grows (emit e).
Proof. intros st. by exists [e]. Qed.

Lemma grows_defer (s : Stmt) : grows (defer s).
Proof. intros st. exists []. by rewrite app_nil_r. Qed.

Lemma grows_query (s : Stmt) : grows (query s).
Proof.
  intros st. unfold query. destruct (Query (db st) s) as [d failed].
  by exists [EvQuery s failed].
Qed.

Lemma grows_bind {A B} (m : M A) (k : A → M B) :
  grows m → (∀ a, grows (k a)) → grows (bind m k).
Proof.
  intros Hm Hk st. unfold bind. destruct (Hm st) as [new1 Hnew1].
  destruct (m st) as [[a| |] st1]; simpl in *; [|by eauto..].
  destruct (Hk a st1) as [new2 Hnew2].
  exists (new1 ++ new2). by rewrite Hnew2, Hnew1, app_assoc.
Qed.

Lemma grows_forEach {A S} (l : list A) (body : A → S → M S) (s : S) :
  (∀ a s, grows (body a s)) → grows (forEach l body s).
Proof.
  intros Hbody. revert s. induction l as [|a l IH]; intros s; simpl.
  - apply grows_ret.
  - apply grows_bind; [apply Hbody | apply IH].
Qed.

Ltac grows_tac :=
  repeat first
    [ apply grows_ret | apply grows_fatal | apply grows_orPanic
    | apply grows_orFatal | apply grows_getDB | apply grows_emit
    | apply grows_defer | apply grows_query
    | apply grows_forEach; intros
    | apply grows_bind; [|intros]
    | match goal with
      | |- grows (if ?b then _ else _) => destruct b
      | |- grows (match ?o with Some _ => _ | None => _ end) => destruct o
      end ].

Lemma grows_generate (rng : GoRange) (cfg : ConversionConfig) :
  grows (generate rng cfg).
Proof.
  unfold generate, cleanUp, enumerate, assemble, tableModel, viewModel,
    generatePostgresDbInit.
  grows_tac.
Qed.

(** A run that comes to [finish] has kept the events it started from. *)
Lemma finish_trace {A} (m : M A) (k : Res A → Res unit) (st : St) :
  grows m →
  ∃ rest, trace (finish (k (m st).1, (m st).2)) = events st ++ rest.
Proof.
  intros Hm. destruct (Hm st) as [new Hnew].
  destruct (k (m st).1) as [[]| |]; simpl.
  - destruct (runDeferred_events (m st).2) as (flags & _ & ->).
    rewrite Hnew, <- app_assoc. eauto.
  - eauto.
  - destruct (runDeferred_events (m st).2) as (flags & _ & ->).
    rewrite Hnew, <- app_assoc. eauto.
Qed.

(** What [usage] does with a message that is not blank. *)
Lemma usage_reports (prog : string) (exitCode : Z) (errMsg : string) :
  TrimSpace errMsg ≠ "" →
  head (trace (usage prog exitCode errMsg))
    = Some (EvStderr ("Error: " +:+ errMsg +:+ newline +:+ newline))
  ∧ Forall (λ e, isWork e = false) (trace (usage prog exitCode errMsg))
  ∧ status (usage prog exitCode errMsg) = exitCode
  ∧ final (usage prog exitCode errMsg) = None.
Proof.
  intros Hmsg. unfold usage. cbn [trace status final].
  rewrite decide_True by done. split_and!; [done | | done | done].
  repeat constructor.
Qed.

End Traces.

(** ** The validation of [main] *)
Section Validation.
Context `{External}.

(** The messages of the validation are not blank. *)
Lemma validate_message (cfg : ConversionConfig) (msg : string) :
  validate cfg = inl msg → TrimSpace msg ≠ "".
Proof.
  unfold validate. intros Hv.
  repeat case_decide; simplify_eq; by vm_compute.
Qed.

(** A configuration passes the validation exactly when nothing it needs
    is missing, and it comes out with its port filled in. *)
Lemma validate_inr (cfg cfg' : ConversionConfig) :
  validate cfg = inr cfg' →
  TrimSpace (OutPath cfg) ≠ ""
  ∧ (DatabaseDialect cfg = POSTGRESQL ∨ DatabaseDialect cfg = SQLITE)
  ∧ (DatabaseDialect cfg = POSTGRESQL →
     TrimSpace (DbHost cfg) ≠ "" ∧ TrimSpace (DbName cfg) ≠ "")
  ∧ (DatabaseDialect cfg = SQLITE → TrimSpace (Sqlitedbpath cfg) ≠ "")
  ∧ cfg' =
      (if decide (DatabaseDialect cfg = POSTGRESQL ∧ DbPort cfg = 0)
       then withConnection cfg (DbHost cfg) 5432 (DbName cfg) (DbUser cfg)
              (DbPassword cfg)
       else cfg).
Proof.
  unfold validate. intros Hv.
  destruct (decide (TrimSpace (OutPath cfg) = "")); [done|].
  destruct (decide (DatabaseDialect cfg ≠ POSTGRESQL
                    ∧ DatabaseDialect cfg ≠ SQLITE)) as [|Hd]; [done|].
  assert (Hfields : ∀ c : ConversionConfig,
    c = (if decide (DatabaseDialect cfg = POSTGRESQL ∧ DbPort cfg = 0)
         then withConnection cfg (DbHost cfg) 5432 (DbName cfg)
                (DbUser cfg) (DbPassword cfg)
         else cfg) →
    DbHost c = DbHost cfg ∧ DbName c = DbName cfg
    ∧ Sqlitedbpath c = Sqlitedbpath cfg).
  { intros c ->. clear Hv.
    destruct (decide (DatabaseDialect cfg = POSTGRESQL ∧ DbPort cfg = 0));
      split_and!; reflexivity. }
  destruct (Hfields _ eq_refl) as (Hh & Hn & Hs).
  rewrite Hh, Hn, Hs in Hv. clear Hfields Hh Hn Hs.
  destruct (decide (DatabaseDialect cfg = POSTGRESQL
                    ∧ TrimSpace (DbHost cfg) = "")) as [|Hhost]; [done|].
  destruct (decide (DatabaseDialect cfg = POSTGRESQL
                    ∧ TrimSpace (DbName cfg) = "")) as [|Hname]; [done|].
  destruct (decide (DatabaseDialect cfg = SQLITE
                    ∧ TrimSpace (Sqlitedbpath cfg) = "")) as [|Hpath];
    [done|].
  injection Hv as <-. split_and!.
  - done.
  - destruct (decide (DatabaseDialect cfg = POSTGRESQL)); [by left|].
    destruct (decide (DatabaseDialect cfg = SQLITE)); [by right|].
    by destruct Hd.
  - intros Hpg. split; intros Heq; [apply Hhost | apply Hname]; done.
  - intros Hsq Heq. by apply Hpath.
  - done.
Qed.

(** C9. A configuration that has a blank [OutPath], a dialect that is
    neither [postgresql] nor [sqlite], a blank [DbHost] or [DbName] under
    [postgresql], or a blank [Sqlitedbpath] under [sqlite], ends in
    [usage]: the error is written to the standard error, the exit
    status is 2, and the run has done nothing else, no database or file
    work. *)
Theorem main_rejects_configuration (rng : GoRange) (prog : string)
    (cfg : ConversionConfig) :
  TrimSpace (OutPath cfg) = ""
  ∨ (DatabaseDialect cfg ≠ POSTGRESQL ∧ DatabaseDialect cfg ≠ SQLITE)
  ∨ (DatabaseDialect cfg = POSTGRESQL
     ∧ (TrimSpace (DbHost cfg) = "" ∨ TrimSpace (DbName cfg) = ""))
  ∨ (DatabaseDialect cfg = SQLITE ∧ TrimSpace (Sqlitedbpath cfg) = "") →
  ∃ msg,
    main rng prog cfg = usage prog 2 msg
    ∧ head (trace (main rng prog cfg))
      = Some (EvStderr ("Error: " +:+ msg +:+ newline +:+ newline))
    ∧ Forall (λ e, isWork e = false) (trace (main rng prog cfg))
    ∧ status (main rng prog cfg) = 2
    ∧ status (main rng prog cfg) ≠ 0
    ∧ final (main rng prog cfg) = None.
Proof.
  intros Hmissing. unfold main.
  destruct (validate (mergeConfig rng cfg)) as [msg|cfg'] eqn:Hv.
  - exists msg. apply validate_message in Hv.
    destruct (usage_reports prog 2 msg Hv) as (? & ? & Hst & ?).
    rewrite Hst. by split_and!.
  - apply validate_inr in Hv as (Hout & Hdialect & Hpg & Hsqlite & _).
    cbn in Hout, Hdialect, Hpg, Hsqlite.
    destruct Hmissing as [?|[[? ?]|[[Hd [?|?]]|[Hd ?]]]].
    + done.
    + by destruct Hdialect.
    + by destruct (Hpg Hd).
    + by destruct (Hpg Hd).
    + by destruct (Hsqlite Hd).
Qed.

End Validation.

(** A configuration without output path, and one with a dialect that does
    not exist. *)
Lemma main_rejects_configuration_OutPath :
  TrimSpace (OutPath (withMaps noOutPathConfig ∅ ∅ [])) = ""
  ∧ ∃ msg,
      @main (smallWorld noEnv twoTables) listed "gormdb2struct"
        (withMaps noOutPathConfig ∅ ∅ [])
      = @usage (smallWorld noEnv twoTables) "gormdb2struct" 2 msg
      ∧ head (trace (@main (smallWorld noEnv twoTables) listed "gormdb2struct"
                       (withMaps noOutPathConfig ∅ ∅ [])))
        = Some (EvStderr ("Error: " +:+ msg +:+ newline +:+ newline))
      ∧ Forall (λ e, isWork e = false)
          (trace (@main (smallWorld noEnv twoTables) listed "gormdb2struct"
                    (withMaps noOutPathConfig ∅ ∅ [])))
      ∧ status (@main (smallWorld noEnv twoTables) listed "gormdb2struct"
                  (withMaps noOutPathConfig ∅ ∅ [])) = 2
      ∧ status (@main (smallWorld noEnv twoTables) listed "gormdb2struct"
                  (withMaps noOutPathConfig ∅ ∅ [])) ≠ 0
      ∧ final (@main (smallWorld noEnv twoTables) listed "gormdb2struct"
                 (withMaps noOutPathConfig ∅ ∅ [])) = None.
Proof.
  split; [reflexivity|].
  apply (@main_rejects_configuration (smallWorld noEnv twoTables) listed
           "gormdb2struct" (withMaps noOutPathConfig ∅ ∅ [])).
  left. reflexivity.
Defined.

(** ** Connection parameters *)
Section Connection.
Context `{External}.

Lemma TrimSpace_nonempty (s : string) : TrimSpace s ≠ "" → s ≠ "".
Proof. intros Hs ->. by apply Hs. Qed.

(** [postgresToGorm] opens the database with the resolved
    configuration, before anything else. *)
Lemma postgresToGorm_opens (rng : GoRange) (cfg cfg' : ConversionConfig) :
  resolveConnection cfg = Some cfg' →
  ∃ rest,
    trace (postgresToGorm rng cfg) = EvOpen (DbDSN (dsnConfig cfg')) :: rest.
Proof.
  intros Hres. unfold postgresToGorm. rewrite Hres.
  destruct (Open (DbDSN (dsnConfig cfg'))) as [d|]; [|by eexists].
  destruct (Ping d); [by eexists|].
  destruct (finish_trace (generate rng cfg') id
              {| db := d; deferred := [];
                 events := [EvOpen (DbDSN (dsnConfig cfg')); EvPing] |}
              (grows_generate rng cfg')) as [rest Hrest].
  unfold id in Hrest. rewrite <- surjective_pairing in Hrest.
  rewrite Hrest. by eexists.
Qed.

(** C10, as the code has it. In [postgresToGorm], a connection field
    that is empty on entry is taken from its environment variable before
    the DSN is built: [DbHost] from [DB_HOST], or [localhost] when that
    is empty too; a zero [DbPort] from [DB_PORT] read as an integer, or
    5432 when that is empty; [DbName] from [DB_NAME]; [DbUser] from
    [DB_USER]; [DbPassword] from [DB_PASSWORD]. The run ends at once when
    [DB_PORT] is not an integer, or when [DbName] and [DB_NAME] are both
    empty. On a run through [main], the validation has refused a blank
    [DbHost] or [DbName] and has set a zero [DbPort] to 5432 before
    [postgresToGorm] is called: only [DbUser] and [DbPassword] can come
    from the environment. *)
Theorem connection_from_environment (rng : GoRange) (prog : string)
    (cfg : ConversionConfig) :
  match resolveConnection cfg with
  | Some cfg' =>
      DbHost cfg' =
        (if decide (DbHost cfg = "")
         then if decide (Getenv "DB_HOST" = "")
              then "localhost" else Getenv "DB_HOST"
         else DbHost cfg)
      ∧ Some (DbPort cfg') =
          (if decide (DbPort cfg = 0)
           then if decide (Getenv "DB_PORT" ≠ "")
                then Atoi (Getenv "DB_PORT") else Some 5432
           else Some (DbPort cfg))
      ∧ DbName cfg' =
          (if decide (DbName cfg = "") then Getenv "DB_NAME"
           else DbName cfg)
      ∧ DbName cfg' ≠ ""
      ∧ DbUser cfg' =
          (if decide (DbUser cfg = "") then Getenv "DB_USER"
           else DbUser cfg)
      ∧ DbPassword cfg' =
          (if decide (DbPassword cfg = "") then Getenv "DB_PASSWORD"
           else DbPassword cfg)
      ∧ ∃ rest,
          trace (postgresToGorm rng cfg)
          = EvOpen (DbDSN {| utilities.Server := DbHost cfg';
                             utilities.Port := DbPort cfg';
                             utilities.Name := DbName cfg';
                             utilities.User := DbUser cfg';
                             utilities.Password := DbPassword cfg';
                             utilities.SSLMode := DbSSLMode cfg |})
            :: rest
  | None =>
      ((DbPort cfg = 0 ∧ Getenv "DB_PORT" ≠ ""
        ∧ Atoi (Getenv "DB_PORT") = None)
       ∨ (DbName cfg = "" ∧ Getenv "DB_NAME" = ""))
      ∧ postgresToGorm rng cfg = {| trace := []; status := 1; final := None |}
  end
  ∧ (∀ cfgv,
       validate (mergeConfig rng cfg) = inr cfgv →
       DatabaseDialect cfgv = POSTGRESQL →
       main rng prog cfg = postgresToGorm rng cfgv
       ∧ DbHost cfg ≠ "" ∧ DbName cfg ≠ ""
       ∧ ∃ cfg',
           resolveConnection cfgv = Some cfg'
           ∧ DbHost cfg' = DbHost cfg
           ∧ DbPort cfg' = (if decide (DbPort cfg = 0) then 5432
                            else DbPort cfg)
           ∧ DbName cfg' = DbName cfg
           ∧ DbUser cfg' =
               (if decide (DbUser cfg = "") then Getenv "DB_USER"
                else DbUser cfg)
           ∧ DbPassword cfg' =
               (if decide (DbPassword cfg = "") then Getenv "DB_PASSWORD"
                else DbPassword cfg)).
Proof.
  split.
  - destruct (resolveConnection cfg) as [cfg'|] eqn:Hres.
    + destruct (postgresToGorm_opens rng cfg cfg' Hres) as [rest Hrest].
      rewrite Hrest. clear Hrest. revert Hres. unfold resolveConnection.
      destruct (Atoi (Getenv "DB_PORT")) as [p|];
        repeat case_decide; cbn [mbind option_bind];
        intros [= <-]; cbn; split_and!; try done; by eexists.
    + split; [|unfold postgresToGorm; by rewrite Hres].
      revert Hres. unfold resolveConnection.
      destruct (Atoi (Getenv "DB_PORT")) as [p|] eqn:Hatoi;
        repeat case_decide; cbn [mbind option_bind];
        intros [=]; first [by left | by right].
  - intros cfgv Hv Hpg.
    pose proof Hv as Hv'.
    apply validate_inr in Hv' as (_ & _ & Hreq & _ & ->).
    cbn in Hreq.
    assert (Hd : DatabaseDialect cfg = POSTGRESQL).
    { revert Hpg. by case_decide. }
    destruct (Hreq Hd) as [Hhost%TrimSpace_nonempty Hname%TrimSpace_nonempty].
    split_and!; [| done | done |].
    + unfold main. rewrite Hv. by rewrite decide_True.
    + unfold resolveConnection. cbn.
      rewrite Hd. destruct (decide (DbPort cfg = 0)) as [Hport|Hport].
      * rewrite decide_True by done. cbn.
        rewrite (decide_False (P := DbHost cfg = "")) by done.
        rewrite (decide_False (P := DbName cfg = "")) by done.
        cbn. eexists. split; [done|]. cbn. by split_and!.
      * rewrite decide_False by (intros [_ ?]; done). cbn.
        rewrite (decide_False (P := DbHost cfg = "")) by done.
        rewrite (decide_False (P := DbPort cfg = 0)) by done.
        rewrite (decide_False (P := DbName cfg = "")) by done.
        cbn. eexists. split; [done|]. cbn. by split_and!.
Qed.

End Connection.

(** C10, as the claim has it, fails: with [DbHost] empty in the
    configuration and [DB_HOST] set, the run ends in [usage] with status 2
    and never opens a database, so that no DSN is built; called by itself,
    [postgresToGorm] would have taken the host from the environment. *)
Lemma main_ignores_DB_HOST :
  DbHost noHostConfig = ""
  ∧ hostFromEnv "DB_HOST" = "db.internal"
  ∧ status (@main (smallWorld hostFromEnv emptyPg) listed "gormdb2struct"
              noHostConfig) = 2
  ∧ Forall (λ e, isWork e = false)
      (trace (@main (smallWorld hostFromEnv emptyPg) listed "gormdb2struct"
                noHostConfig))
  ∧ DbHost <$> @resolveConnection (smallWorld hostFromEnv emptyPg) noHostConfig
    = Some "db.internal".
Proof.
  split_and!; [done | done | by vm_compute | | by vm_compute].
  vm_compute. repeat constructor.
Qed.

(** The connection of a configuration without user, port and password, in
    an environment that sets them. *)
Example connection_from_credentials :
  (λ c, (DbHost c, DbPort c, DbName c, DbUser c, DbPassword c))
    <$> @resolveConnection
          (smallWorld (λ name, if decide (name = "DB_USER") then "gorm"
                            else if decide (name = "DB_PASSWORD") then "secret"
                            else if decide (name = "DB_PORT") then "6543"
                            else "")
             emptyPg)
          minimalConfig
  = Some ("localhost", 6543, "my_database", "gorm", "secret").
Proof. vm_compute. reflexivity. Qed.

(** * Further properties *)

(** ** Synthesized fields and overrides *)
Section SynthesizedFields.
Context `{External}.

(** X1. The loop over the extra fields of a table keeps the fields the
    model has and appends one field per specification, in the order of the
    specifications; an appended field has the property name as its name,
    no column name, the lower-camel property name as its only tag, the
    foreign-key and reference names as its two gorm tags, and a relation
    over the property type as it is written, with its package. *)
Theorem addExtraFields_appends (efs : list ExtraField)
    (fields : list gen.Field) :
  ∃ fs,
    addExtraFields efs fields = Some (fields ++ fs)
    ∧ Forall2
        (λ ef f,
           gen.Name f = StructPropName ef
           ∧ gen.ColumnName f = ""
           ∧ gen.Tag f = {["json" := ToLowerCamel (StructPropName ef)]}
           ∧ gen.GORMTag f !! "foreignKey" = Some [FkStructPropName ef]
           ∧ gen.GORMTag f !! "references" = Some [RefStructPropName ef]
           ∧ dom (gen.GORMTag f) = ({["foreignKey"; "references"]} : gset string)
           ∧ gen.Relation f =
               Some (field.NewRelationWithType
                       (if HasMany ef then field.HasMany else field.HasOne)
                       (StructPropName ef) (StructPropType ef)))
        efs fs.
Proof.
  revert fields. induction efs as [|ef efs IH]; intros fields.
  - exists []. rewrite app_nil_r. split; [done | constructor].
  - cbn [addExtraFields].
    destruct (genRelationField_result ef (gen.FieldNew "" ""))
      as (base & _ & ->). cbn [mbind option_bind].
    edestruct IH as (fs & -> & Hfs).
    eexists (_ :: fs). rewrite <- app_assoc. split; [done|].
    constructor; [|done]. cbn.
    split_and!; try done.
Qed.

(** X2. An override map reaches a synthesized field through its property
    name, as a synthesized field has no column name; and an override under
    the empty key is taken by every synthesized field, before the one
    under its property name. Without either, the field keeps the
    lower-camel property name as its tag. *)
Theorem override_of_synthesized (overrides : gmap string string)
    (ef : ExtraField) :
  ∃ f,
    genRelationField ef (gen.FieldNew "" "") = Some f
    ∧ gen.Tag (overrideJsonTag overrides f) !! "json" =
        Some (match overrides !! "" with
              | Some tag => tag
              | None =>
                  match overrides !! StructPropName ef with
                  | Some tag => tag
                  | None => ToLowerCamel (StructPropName ef)
                  end
              end).
Proof.
  destruct (genRelationField_result ef (gen.FieldNew "" ""))
    as (base & _ & ->).
  eexists. split; [done|]. unfold overrideJsonTag. cbn.
  destruct (overrides !! "") as [tag|]; cbn;
    [by rewrite lookup_insert_eq|].
  destruct (overrides !! StructPropName ef) as [tag|]; cbn;
    [by rewrite lookup_insert_eq | by rewrite lookup_singleton_eq].
Qed.

(** X3. Applying the overrides of a table a second time changes nothing:
    an override never changes the names it is looked up by. *)
Theorem applyJsonTagOverrides_idempotent (cfg : ConversionConfig)
    (name : string) (fields : list gen.Field) :
  applyJsonTagOverrides cfg name (applyJsonTagOverrides cfg name fields)
  = applyJsonTagOverrides cfg name fields.
Proof.
  unfold applyJsonTagOverrides.
  destruct (JsonTagOverridesByTable cfg !! name) as [o|]; [|done].
  rewrite <- list_fmap_compose. apply list_fmap_ext. intros _ f _. cbn.
  unfold overrideJsonTag.
  destruct (o !! gen.ColumnName f) as [tag|] eqn:Hcol; cbn.
  - rewrite Hcol. unfold gen.Tag_Set. cbn. by rewrite insert_insert_eq.
  - destruct (o !! gen.Name f) as [tag|] eqn:Hname; cbn.
    + rewrite Hcol, Hname. unfold gen.Tag_Set. cbn.
      by rewrite insert_insert_eq.
    + by rewrite Hcol, Hname.
Qed.

End SynthesizedFields.

(** ** The import paths *)

(** X4. The merge of the import paths keeps the paths of the
    configuration, in their order, and appends the built-in paths that the
    configuration does not have, in their order; so it adds no duplicate to
    paths that had none. *)
Theorem mergeImports_appends_missing (defaults paths : list string) :
  mergeImports defaults paths = paths ++ filter (λ p, p ∉ paths) defaults
  ∧ (NoDup paths → NoDup defaults → NoDup (mergeImports defaults paths))
  ∧ (∀ p, p ∈ mergeImports defaults paths ↔ p ∈ paths ∨ p ∈ defaults).
Proof.
  assert (Heq : mergeImports defaults paths
                = paths ++ filter (λ p, p ∉ paths) defaults).
  { unfold mergeImports.
    assert (Hloop : ∀ l ps,
      foldl (λ ps p, if decide (p ∈ (list_to_set paths : gset string))
                     then ps else ps ++ [p]) ps l
      = ps ++ filter (λ p, p ∉ paths) l).
    { induction l as [|q l IHl]; intros ps; cbn [foldl].
      - by rewrite filter_nil, app_nil_r.
      - rewrite IHl. destruct (decide (q ∈ paths)) as [Hq|Hq].
        + rewrite decide_True by by apply elem_of_list_to_set.
          by rewrite filter_cons_False by (intros ?; done).
        + rewrite decide_False by by rewrite elem_of_list_to_set.
          by rewrite filter_cons_True, <- app_assoc by done. }
    apply Hloop. }
  rewrite Heq. split_and!; [done | |].
  - intros Hpaths Hdefaults. apply NoDup_app. split_and!; [done | |].
    + intros p Hp [Hnot _]%list_elem_of_filter. done.
    + by apply NoDup_filter.
  - intros p. rewrite elem_of_app, list_elem_of_filter.
    destruct (decide (p ∈ paths)) as [Hp|Hp]; split.
    + by left.
    + by left.
    + intros [?|[_ ?]]; [done | by right].
    + intros [?|?]; [done | by right].
Qed.

(** ** Connection parameters, again *)
Section ConnectionAgain.
Context `{External}.

(** What the resolution leaves in the connection fields. *)
Lemma resolveConnection_fields (cfg cfg' : ConversionConfig) :
  resolveConnection cfg = Some cfg' →
  ∃ host port name user password,
    cfg' = withConnection cfg host port name user password
    ∧ host ≠ "" ∧ name ≠ ""
    ∧ (port = 0 →
       Getenv "DB_PORT" ≠ "" ∧ Atoi (Getenv "DB_PORT") = Some 0)
    ∧ (user = "" → Getenv "DB_USER" = "")
    ∧ (password = "" → Getenv "DB_PASSWORD" = "").
Proof.
  unfold resolveConnection. intros Hres.
  apply bind_Some in Hres as (port & Hport & Hres).
  apply bind_Some in Hres as (name & Hname & [= <-]).
  eexists _, port, name, _, _. split; [reflexivity|].
  split_and!.
  - destruct (decide (DbHost cfg = "")); [|done].
    by destruct (decide (Getenv "DB_HOST" = "")).
  - destruct (decide (DbName cfg = "")); [|by injection Hname as <-].
    destruct (decide (Getenv "DB_NAME" = "")); [done|].
    by injection Hname as <-.
  - intros ->. destruct (decide (DbPort cfg = 0)) as [|Hnonzero];
      [|by injection Hport as Hzero].
    destruct (decide (Getenv "DB_PORT" ≠ "")); [done|].
    by injection Hport.
  - by destruct (decide (DbUser cfg = "")).
  - by destruct (decide (DbPassword cfg = "")).
Qed.

(** X5. Resolving the connection of a resolved configuration gives it
    back: what came from the environment is not looked up again, and the
    other fields of the configuration are never changed. *)
Theorem resolveConnection_idempotent (cfg cfg' : ConversionConfig) :
  resolveConnection cfg = Some cfg' →
  resolveConnection cfg' = Some cfg'
  ∧ withConnection cfg (DbHost cfg') (DbPort cfg') (DbName cfg')
      (DbUser cfg') (DbPassword cfg') = cfg'
  ∧ DbHost cfg' ≠ "" ∧ DbName cfg' ≠ "".
Proof.
  intros (host & port & name & user & password & -> & Hhost & Hname
          & Hport & Huser & Hpassword)%resolveConnection_fields.
  split_and!; [|done..].
  unfold resolveConnection.
  cbn [DbHost DbPort DbName DbUser DbPassword withConnection].
  rewrite (decide_False (P := host = "")) by done.
  rewrite (decide_False (P := name = "")) by done.
  assert (Hp : (if decide (port = 0)
                then if decide (Getenv "DB_PORT" ≠ "")
                     then Atoi (Getenv "DB_PORT") else Some 5432
                else Some port) = Some port).
  { destruct (decide (port = 0)) as [->|]; [|done].
    destruct (Hport eq_refl) as [Henv ->]. by rewrite decide_True. }
  rewrite Hp. cbn [mbind option_bind].
  assert (Hu : (if decide (user = "") then Getenv "DB_USER" else user)
               = user).
  { destruct (decide (user = "")) as [->|]; [by apply Huser|done]. }
  assert (Hw : (if decide (password = "") then Getenv "DB_PASSWORD"
                else password) = password).
  { destruct (decide (password = "")) as [->|]; [by apply Hpassword|done]. }
  by rewrite Hu, Hw.
Qed.

End ConnectionAgain.

(** The configuration without host, resolved in an environment that names
    one. *)
Lemma resolveConnection_idempotent_env :
  @resolveConnection (smallWorld hostFromEnv emptyPg) noHostConfig
    = Some (withConnection noHostConfig "db.internal" 5432 "my_database"
              "" "")
  ∧ @resolveConnection (smallWorld hostFromEnv emptyPg)
      (withConnection noHostConfig "db.internal" 5432 "my_database" "" "")
      = Some (withConnection noHostConfig "db.internal" 5432 "my_database"
                "" "")
  ∧ withConnection noHostConfig "db.internal" 5432 "my_database" "" ""
    = withConnection noHostConfig "db.internal" 5432 "my_database" "" ""
  ∧ "db.internal" ≠ "" ∧ "my_database" ≠ "".
Proof.
  split; [reflexivity|].
  apply (@resolveConnection_idempotent (smallWorld hostFromEnv emptyPg)
           noHostConfig
           (withConnection noHostConfig "db.internal" 5432 "my_database"
              "" "")).
  reflexivity.
Defined.

(** ** The dispatch of [main] *)
Section Dispatch.
Context `{External}.

Lemma validate_inl (cfg : ConversionConfig) (msg : string) :
  validate cfg = inl msg → incomplete cfg.
Proof.
  unfold validate, incomplete. intros Hv.
  destruct (decide (TrimSpace (OutPath cfg) = "")); [by left|].
  destruct (decide (DatabaseDialect cfg ≠ POSTGRESQL
                    ∧ DatabaseDialect cfg ≠ SQLITE)); [by right; left|].
  assert (Hfields :
    let c := if decide (DatabaseDialect cfg = POSTGRESQL ∧ DbPort cfg = 0)
             then withConnection cfg (DbHost cfg) 5432 (DbName cfg)
                    (DbUser cfg) (DbPassword cfg)
             else cfg in
    DbHost c = DbHost cfg ∧ DbName c = DbName cfg
    ∧ Sqlitedbpath c = Sqlitedbpath cfg).
  { clear Hv.
    destruct (decide (DatabaseDialect cfg = POSTGRESQL ∧ DbPort cfg = 0));
      split_and!; reflexivity. }
  cbv zeta in Hfields. destruct Hfields as (Hh & Hn & Hs).
  rewrite Hh, Hn, Hs in Hv. clear Hh Hn Hs.
  destruct (decide (DatabaseDialect cfg = POSTGRESQL
                    ∧ TrimSpace (DbHost cfg) = "")) as [[? ?]|];
    [right; right; left; by auto|].
  destruct (decide (DatabaseDialect cfg = POSTGRESQL
                    ∧ TrimSpace (DbName cfg) = "")) as [[? ?]|];
    [right; right; left; by auto|].
  destruct (decide (DatabaseDialect cfg = SQLITE
                    ∧ TrimSpace (Sqlitedbpath cfg) = "")) as [[? ?]|];
    [right; right; right; by auto|].
  done.
Qed.

(** X6. [main] ends in [usage], with status 2, exactly when the
    configuration is incomplete. A complete configuration goes to the
    function of its dialect with the defaults merged in: to
    [postgresToGorm], with port 5432 when it has none, or to
    [sqliteToGorm], whose port is left as it is. The last branch of [main],
    for an unknown dialect, is never taken. *)
Theorem main_dispatch (rng : GoRange) (prog : string) (cfg : ConversionConfig) :
  (incomplete cfg
   ∧ ∃ msg, TrimSpace msg ≠ "" ∧ main rng prog cfg = usage prog 2 msg)
  ∨ (¬ incomplete cfg
     ∧ DatabaseDialect cfg = POSTGRESQL
     ∧ main rng prog cfg =
         postgresToGorm rng
           (if decide (DbPort cfg = 0)
            then withConnection (mergeConfig rng cfg) (DbHost cfg) 5432
                   (DbName cfg) (DbUser cfg) (DbPassword cfg)
            else mergeConfig rng cfg))
  ∨ (¬ incomplete cfg
     ∧ DatabaseDialect cfg = SQLITE
     ∧ main rng prog cfg =
         {| trace := (sqliteToGorm (mergeConfig rng cfg)).1;
            status := (sqliteToGorm (mergeConfig rng cfg)).2;
            final := None |}).
Proof.
  unfold main.
  destruct (validate (mergeConfig rng cfg)) as [msg|cfg'] eqn:Hv.
  - left. split.
    + by apply validate_inl in Hv.
    + exists msg. split; [by apply validate_message in Hv | done].
  - right. pose proof Hv as Hv'.
    apply validate_inr in Hv' as (Hout & Hdialect & Hpg & Hsq & ->).
    cbn in Hout, Hdialect, Hpg, Hsq.
    assert (Hcomplete : ¬ incomplete cfg).
    { intros [?|[[? ?]|[[Hd [?|?]]|[Hd ?]]]].
      - done.
      - by destruct Hdialect.
      - by destruct (Hpg Hd).
      - by destruct (Hpg Hd).
      - by apply (Hsq Hd). }
    cbn [DatabaseDialect mergeConfig withMaps DbPort DbHost DbName DbUser
         DbPassword].
    destruct Hdialect as [Hd|Hd].
    + left. split_and!; [done | done |].
      destruct (decide (DbPort cfg = 0)) as [Hport|Hport].
      * rewrite (decide_True (P := DatabaseDialect cfg = POSTGRESQL ∧ _))
          by done.
        cbn. by rewrite decide_True.
      * rewrite (decide_False (P := DatabaseDialect cfg = POSTGRESQL ∧ _))
          by (intros [_ ?]; done).
        cbn. by rewrite decide_True.
    + right. split_and!; [done | done |].
      rewrite (decide_False (P := DatabaseDialect cfg = POSTGRESQL ∧ _))
        by (intros [Hpg' _]; rewrite Hd in Hpg'; discriminate).
      cbn. rewrite decide_False by (rewrite Hd; discriminate).
      rewrite decide_True by done.
      by destruct (sqliteToGorm _).
Qed.

End Dispatch.

(** ** The two loops of the assembly *)
Section Loops.
Context `{External}.

(** The loop over the tables reflects them in order and stores their
    models; it leaves the database and the deferred statements alone. *)
Lemma tableLoop_result (rng : GoRange) (cfg : ConversionConfig)
    (tables : list string) (modelsMap : gmap string gen.Model) (st : St) :
  ∃ m' st',
    forEach tables (tableModel rng cfg) modelsMap st = (Ok m', st')
    ∧ db st' = db st
    ∧ deferred st' = deferred st
    ∧ events st' = events st ++ (EvGenerateModel <$> tables)
    ∧ (∀ t, t ∈ tables → m' !! t = tableModelOf rng cfg (db st) t)
    ∧ (∀ n, n ∉ tables → m' !! n = modelsMap !! n).
Proof.
  revert modelsMap st. induction tables as [|t ts IH]; intros modelsMap st.
  - exists modelsMap, st. rewrite app_nil_r.
    split_and!; try done. by intros t ?%elem_of_nil.
  - cbn [forEach]. unfold bind at 1.
    destruct (tableModel_fields rng cfg t modelsMap st)
      as (fields & st1 & Hfields & -> & Hdb & Hdef & Hev).
    edestruct IH as (m' & st' & -> & Hdb' & Hdef' & Hev' & Hin & Hout).
    exists m', st'. rewrite Hdb', Hdef', Hev', Hdb, Hdef, Hev.
    split_and!; try done.
    + by rewrite <- app_assoc.
    + intros n Hn. destruct (decide (n ∈ ts)) as [Hts|Hts].
      * rewrite Hin by done. by rewrite Hdb.
      * apply elem_of_cons in Hn as [->|?]; [|done].
        rewrite Hout by done. rewrite lookup_insert_eq.
        unfold tableModelOf. by rewrite Hfields.
    + intros n Hn. apply not_elem_of_cons in Hn as [Hne Hn].
      rewrite Hout by done. by rewrite lookup_insert_ne.
Qed.

(** A loop over the materialized views that comes to its end has deferred
    one drop per view, the latest first, and has stored every view under
    its own name, as table name and as file name. *)
Lemma viewLoop_ok (rng : GoRange) (cfg : ConversionConfig)
    (views : list string) (modelsMap m' : gmap string gen.Model)
    (st st' : St) :
  forEach views (viewModel rng cfg) modelsMap st = (Ok m', st') →
  deferred st'
    = ((λ v, DropView (tmpViewName v)) <$> reverse views) ++ deferred st
  ∧ (∀ v, v ∈ views →
       ∃ model, m' !! v = Some model
                ∧ gen.TableName model = v ∧ gen.FileName model = v)
  ∧ (∀ n, n ∉ views → m' !! n = modelsMap !! n).
Proof.
  revert modelsMap st. induction views as [|v vs IH]; intros modelsMap st.
  - intros [= <- <-]. split_and!; try done. by intros v ?%elem_of_nil.
  - cbn [forEach]. unfold bind at 1.
    pose proof (viewModel_result rng cfg v modelsMap st) as Hv.
    cbv zeta in Hv.
    destruct (Query (Query (db st) (DropViewIfExists (tmpViewName v))).1
                (CreateView (tmpViewName v) v)) as [d2 f2].
    cbn [fst snd] in Hv. destruct f2.
    + rewrite Hv. done.
    + destruct Hv as (fields & _ & ->). intros Hrest.
      apply IH in Hrest as (Hdef & Hin & Hout). cbn [deferred] in Hdef.
      split_and!.
      * rewrite Hdef, reverse_cons, fmap_app, <- app_assoc. done.
      * intros n Hn. destruct (decide (n ∈ vs)) as [Hvs|Hvs]; [by apply Hin|].
        apply elem_of_cons in Hn as [->|?]; [|done].
        rewrite Hout by done. rewrite lookup_insert_eq. by eexists.
      * intros n Hn. apply not_elem_of_cons in Hn as [Hne Hn].
        rewrite Hout by done. by rewrite lookup_insert_ne.
Qed.

(** X7. When the assembly comes to its end, the set of models has exactly
    the names of the tables and of the materialized views as its keys. A
    materialized view is stored with its own name as table name and as file
    name, also when a table has the same name: the view then replaces the
    table. Any other table is stored as it is reflected from the database
    the assembly started from. *)
Theorem assemble_models (rng : GoRange) (cfg : ConversionConfig)
    (tables views : list string) (m : gmap string gen.Model) (st st' : St) :
  assemble rng cfg tables views st = (Ok m, st') →
  dom m = list_to_set (tables ++ views)
  ∧ (∀ v, v ∈ views →
       ∃ model, m !! v = Some model
                ∧ gen.TableName model = v ∧ gen.FileName model = v)
  ∧ (∀ t, t ∈ tables → t ∉ views →
       is_Some (m !! t) ∧ m !! t = tableModelOf rng cfg (db st) t).
Proof.
  unfold assemble, bind.
  destruct (tableLoop_result rng cfg tables ∅ st)
    as (m1 & st1 & -> & Hdb & _ & _ & Hin1 & Hout1).
  intros Hviews. apply viewLoop_ok in Hviews as (_ & Hin & Hout).
  assert (Htable : ∀ t, t ∈ tables → is_Some (tableModelOf rng cfg (db st) t)).
  { intros t _. unfold tableModelOf.
    destruct (extraFieldsOf_total cfg t
      (gen.Fields (GenerateModel (dtMaps rng cfg) (db st) t))) as [fs ->].
    by eexists. }
  split_and!.
  - apply set_eq. intros n.
    rewrite elem_of_dom, elem_of_list_to_set, elem_of_app.
    destruct (decide (n ∈ views)) as [Hv|Hv].
    + destruct (Hin n Hv) as (model & -> & _). split; [by right | by eexists].
    + rewrite Hout by done.
      destruct (decide (n ∈ tables)) as [Ht|Ht].
      * rewrite Hin1 by done. split; [by left | intros _; by apply Htable].
      * rewrite Hout1, lookup_empty by done.
        split; [by intros [? ?] | by intros [?|?]].
  - done.
  - intros t Ht Hv. rewrite Hout, Hin1 by done. split; [by apply Htable|done].
Qed.

End Loops.

(** The assembly of [mv1], asked for as a table and as a materialized
    view. *)
Lemma assemble_models_collision :
  ∃ m st',
    @assemble (smallWorld noEnv oneMatview) listed (viewsConfig ["mv1"])
      ["mv1"] ["mv1"]
      (@Build_St (smallWorld noEnv oneMatview) oneMatview [] []) = (Ok m, st')
    ∧ dom m = list_to_set (["mv1"] ++ ["mv1"])
    ∧ (∀ v, v ∈ ["mv1"] →
         ∃ model, m !! v = Some model
                  ∧ gen.TableName model = v ∧ gen.FileName model = v)
    ∧ (∀ t, t ∈ ["mv1"] → t ∉ ["mv1"] →
         is_Some (m !! t)
         ∧ m !! t = @tableModelOf (smallWorld noEnv oneMatview) listed
                      (viewsConfig ["mv1"]) oneMatview t).
Proof.
  eexists _, _. split; [reflexivity|].
  eapply (@assemble_models (smallWorld noEnv oneMatview) listed
            (viewsConfig ["mv1"]) ["mv1"] ["mv1"] _
            (@Build_St (smallWorld noEnv oneMatview) oneMatview [] []) _).
  reflexivity.
Defined.

(** ** What a run never does *)
Section Always.
Context `{External}.
Context (P : Event → Prop) (Q : Stmt → Prop).

Lemma always_ret {A} (a : A) : always P Q (ret a).
Proof. intros st HQ. exists []. by rewrite app_nil_r. Qed.

Lemma always_fatal {A} : always P Q (@fatal _ A).
Proof. intros st HQ. exists []. by rewrite app_nil_r. Qed.

Lemma always_orPanic {A} (o : option A) : always P Q (orPanic o).
Proof. intros st HQ. exists []. rewrite app_nil_r. by destruct o. Qed.

Lemma always_orFatal {A} (o : option A) : always P Q (orFatal o).
Proof. intros st HQ. exists []. rewrite app_nil_r. by destruct o. Qed.

Lemma always_getDB : always P Q getDB.
Proof. intros st HQ. exists []. by rewrite app_nil_r. Qed.

Lemma always_emit (e : Event) : P e → always P Q (emit e).
Proof. intros He st HQ. exists [e]. split_and!; [done | by constructor | done]. Qed.

Lemma always_defer (s : Stmt) : Q s → always P Q (defer s).
Proof.
  intros Hs st HQ. exists []. rewrite app_nil_r.
  split_and!; [done | done | by constructor].
Qed.

Lemma always_query (s : Stmt) : (∀ failed, P (EvQuery s failed)) → always P Q (query s).
Proof.
  intros Hs st HQ. unfold query. destruct (Query (db st) s) as [d failed].
  exists [EvQuery s failed]. split_and!; [done | by constructor | done].
Qed.

Lemma always_bind {A B} (m : M A) (k : A → M B) :
  always P Q m → (∀ a, always P Q (k a)) → always P Q (bind m k).
Proof.
  intros Hm Hk st HQ. unfold bind.
  destruct (Hm st HQ) as (new1 & Hnew1 & HP1 & HQ1).
  destruct (m st) as [[a| |] st1]; cbn [snd] in *; [|by eauto..].
  destruct (Hk a st1 HQ1) as (new2 & Hnew2 & HP2 & HQ2).
  exists (new1 ++ new2). rewrite Hnew2, Hnew1, app_assoc.
  split_and!; [done | by apply Forall_app | done].
Qed.

Lemma always_forEach {A S} (l : list A) (body : A → S → M S) (s : S) :
  (∀ a s, a ∈ l → always P Q (body a s)) → always P Q (forEach l body s).
Proof.
  revert s. induction l as [|a l IH]; intros s Hbody; cbn [forEach].
  - apply always_ret.
  - apply always_bind.
    + apply Hbody, list_elem_of_here.
    + intros s'. apply IH. intros b s'' Hb.
      by apply Hbody, list_elem_of_further.
Qed.

(** The events of a whole run, through the deferred statements it sends
    at its end. *)
Lemma always_finish (m : M unit) (st : St) :
  always P Q m →
  (∀ s failed, Q s → P (EvQuery s failed)) →
  Forall P (events st) → Forall Q (deferred st) →
  Forall P (trace (finish (m st))).
Proof.
  intros Hm HPQ HP HQ. destruct (Hm st HQ) as (new & Hnew & HPnew & HQ').
  assert (Hdrops : ∀ l flags,
    Forall Q l → Forall P (zip_with EvQuery l flags)).
  { induction l as [|s l IHl]; intros [|f flags] Hl; cbn; try done.
    apply Forall_cons in Hl as [Hs Hl]. constructor; [by apply HPQ | by apply IHl]. }
  destruct (m st) as [[[]| |] st']; cbn [snd finish trace] in *.
  - destruct (runDeferred_events st') as (flags & _ & ->).
    rewrite Hnew, !Forall_app. split_and!; [done | done | by apply Hdrops].
  - rewrite Hnew, Forall_app. by split.
  - destruct (runDeferred_events st') as (flags & _ & ->).
    rewrite Hnew, !Forall_app. split_and!; [done | done | by apply Hdrops].
Qed.

Lemma always_postgresToGorm (rng : GoRange) (cfg : ConversionConfig) :
  (∀ cfg', resolveConnection cfg = Some cfg' →
           always P Q (generate rng cfg')) →
  (∀ dsn, P (EvOpen dsn)) → P EvPing →
  (∀ s failed, Q s → P (EvQuery s failed)) →
  Forall P (trace (postgresToGorm rng cfg)).
Proof.
  intros Hgen Hopen Hping HPQ. unfold postgresToGorm.
  destruct (resolveConnection cfg) as [cfg'|]; [|by constructor].
  destruct (Open (DbDSN (dsnConfig cfg'))) as [d|];
    [|by repeat constructor].
  destruct (Ping d); [by repeat constructor|].
  apply always_finish; [by apply Hgen | done | by repeat constructor | done].
Qed.

End Always.

Ltac always_tac :=
  repeat first
    [ apply always_ret | apply always_fatal | apply always_orPanic
    | apply always_orFatal | apply always_getDB
    | apply always_emit | apply always_defer
    | apply always_query; intros
    | apply always_forEach; intros
    | apply always_bind; [|intros]
    | match goal with
      | |- always _ _ (if ?b then _ else _) => destruct b eqn:?
      end ].

Section Inventory.
Context `{External}.
Context (P : Event → Prop) (Q : Stmt → Prop).

Lemma always_enumerate {B} (configured : option (list string)) (c : Catalog)
    (k : list string → M B) :
  (configured = None → P (EvScan c)) →
  (∀ names, (∀ n, n ∈ names → listedIn configured n) →
            always P Q (k names)) →
  always P Q (bind (enumerate configured c) k).
Proof.
  intros Hscan Hk. destruct configured as [names|]; cbn [enumerate].
  - change (always P Q (k names)). apply Hk.
    intros n Hn ? [= <-]. done.
  - apply always_bind; [always_tac; by apply Hscan|].
    intros names. apply Hk. intros n _ ? [=].
Qed.

(** The inventory of [generate]: every event it can add, with the setting
    of the configuration that it takes. *)
Lemma always_generate (rng : GoRange) (cfg : ConversionConfig) :
  (CleanUp cfg = true → ∀ pattern, P (EvGlob pattern)) →
  (CleanUp cfg = true → ∀ file, P (EvRemove file)) →
  (Tables cfg = None → P (EvScan InformationSchemaTables)) →
  (MaterializedViews cfg = None → P (EvScan PgMatviews)) →
  (∀ t, listedIn (Tables cfg) t → P (EvGenerateModel t)) →
  (∀ v, listedIn (MaterializedViews cfg) v →
        (∀ failed, P (EvQuery (DropViewIfExists (tmpViewName v)) failed))
        ∧ (∀ failed, P (EvQuery (CreateView (tmpViewName v) v) failed))
        ∧ Q (DropView (tmpViewName v))
        ∧ P (EvGenerateModelAs (tmpViewName v)
               (SchemaName (NamingStrategy cfg) v))) →
  (∀ models, P (EvApplyBasic models)) →
  P EvExecute →
  (GenerateDbInit cfg = true →
   ∀ data, P (EvWriteFile (Join (OutPath cfg) "db.go")
                (dbInitData rng cfg data))) →
  always P Q (generate rng cfg).
Proof.
  intros Hglob Hremove Hscant Hscanv Htable Hview Happly Hexec Hwrite.
  unfold generate. apply always_bind.
  { destruct (CleanUp cfg); [|apply always_ret].
    unfold cleanUp. always_tac; auto. }
  intros _. apply always_enumerate; [done|]. intros tables Htables.
  apply always_enumerate; [done|]. intros views Hviews.
  apply always_bind.
  { unfold assemble. apply always_bind.
    - apply always_forEach. intros t s Ht. unfold tableModel.
      always_tac. auto.
    - intros m. apply always_forEach. intros v s Hv.
      destruct (Hview v (Hviews v Hv)) as (Hdrop & Hcreate & Hdefer & Hgen).
      unfold viewModel. always_tac; auto. }
  intros m. always_tac; auto.
  unfold generatePostgresDbInit. always_tac. by apply Hwrite.
Qed.

Lemma resolveConnection_keeps (cfg cfg' : ConversionConfig) :
  resolveConnection cfg = Some cfg' →
  ∃ host port name user password,
    cfg' = withConnection cfg host port name user password.
Proof.
  unfold resolveConnection. intros Hres.
  apply bind_Some in Hres as (port & _ & Hres).
  apply bind_Some in Hres as (name & _ & [= <-]).
  by eexists _, _, _, _, _.
Qed.

End Inventory.

Section Never.
Context `{External}.


(** X9. The steps of a run that the configuration turns off do not
    happen: without [CleanUp] no file is looked for or removed; without
    [GenerateDbInit] no file is written by the run itself; a configured
    list of tables or of materialized views is used as it is, the catalog
    is not asked; and with an empty list of materialized views no
    statement is sent to the database. *)
Theorem optional_steps (rng : GoRange) (cfg : ConversionConfig) :
  (CleanUp cfg = false →
   Forall (λ e, match e with
                | EvGlob _ | EvRemove _ => False
                | _ => True
                end) (trace (postgresToGorm rng cfg)))
  ∧ (GenerateDbInit cfg = false →
     Forall (λ e, match e with
                  | EvWriteFile _ _ => False
                  | _ => True
                  end) (trace (postgresToGorm rng cfg)))
  ∧ (is_Some (Tables cfg) →
     Forall (λ e, e ≠ EvScan InformationSchemaTables)
       (trace (postgresToGorm rng cfg)))
  ∧ (is_Some (MaterializedViews cfg) →
     Forall (λ e, e ≠ EvScan PgMatviews) (trace (postgresToGorm rng cfg)))
  ∧ (MaterializedViews cfg = Some [] →
     Forall (λ e, match e with
                  | EvQuery _ _ | EvGenerateModelAs _ _ => False
                  | _ => True
                  end) (trace (postgresToGorm rng cfg))).
Proof.
  split_and!.
  - intros Hoff. apply always_postgresToGorm with (Q := λ _, True);
      [|done..].
    intros cfg' (? & ? & ? & ? & ? & ->)%resolveConnection_keeps.
    apply always_generate; try done; cbn; by rewrite Hoff.
  - intros Hoff. apply always_postgresToGorm with (Q := λ _, True);
      [|done..].
    intros cfg' (? & ? & ? & ? & ? & ->)%resolveConnection_keeps.
    apply always_generate; try done; cbn; by rewrite Hoff.
  - intros [tables Htables].
    apply always_postgresToGorm with (Q := λ _, True); [|done..].
    intros cfg' (? & ? & ? & ? & ? & ->)%resolveConnection_keeps.
    apply always_generate; try done; cbn; by rewrite ?Htables.
  - intros [views Hviews].
    apply always_postgresToGorm with (Q := λ _, True); [|done..].
    intros cfg' (? & ? & ? & ? & ? & ->)%resolveConnection_keeps.
    apply always_generate; try done; cbn; by rewrite ?Hviews.
  - intros Hviews.
    apply always_postgresToGorm with (Q := λ _, False); [|done..].
    intros cfg' (? & ? & ? & ? & ? & ->)%resolveConnection_keeps.
    apply always_generate; try done. cbn. rewrite Hviews.
    intros v Hv. specialize (Hv [] eq_refl). by apply elem_of_nil in Hv.
Qed.


End Never.


Example dbInit_password_from_env :
  omap (λ e, match e with
             | EvWriteFile file d => Some (file, data_DbPassword d)
             | _ => None
             end)
    (trace (@postgresToGorm (smallWorld passwordEnv twoTables) listed
              dbInitConfig))
  = [("./generated/db.go", "secret")].
Proof. by vm_compute. Qed.

(** ** The removal of the generated files *)
Section CleanUp.
Context `{External}.

Lemma forEach_emit {A} (g : A → Event) (l : list A) (st : St) :
  forEach l (λ x _, emit (g x)) () st = (Ok (), addEvents st (g <$> l)).
Proof.
  revert st. induction l as [|x l IH]; intros st; cbn [forEach].
  - unfold ret, addEvents. cbn. rewrite app_nil_r. by destruct st.
  - unfold bind, emit at 1. rewrite IH. unfold addEvents. cbn.
    by rewrite <- app_assoc.
Qed.

(** X11. [cleanUp] removes the files that match [*gen.go] in the output
    path, then those that match [*gen.go] in its [models] directory, and
    no other file. When the first pattern cannot be read it ends the run
    with nothing removed; when the second cannot, it ends the run with the
    files of the first already removed. *)
Theorem cleanUp_removes (outPath : string) (st : St) :
  cleanUp outPath st =
    match Glob (outPath +:+ "/*gen.go") with
    | None => (Fatal, addEvents st [EvGlob (outPath +:+ "/*gen.go")])
    | Some genFiles =>
        match Glob (outPath +:+ "/models/*gen.go") with
        | None =>
            (Fatal,
             addEvents st
               ([EvGlob (outPath +:+ "/*gen.go")]
                ++ (EvRemove <$> genFiles)
                ++ [EvGlob (outPath +:+ "/models/*gen.go")]))
        | Some modelFiles =>
            (Ok (),
             addEvents st
               ([EvGlob (outPath +:+ "/*gen.go")]
                ++ (EvRemove <$> genFiles)
                ++ [EvGlob (outPath +:+ "/models/*gen.go")]
                ++ (EvRemove <$> modelFiles)))
        end
    end.
Proof.
  unfold cleanUp. unfold bind at 1. unfold emit at 1. cbn [fst snd].
  unfold bind at 1.
  destruct (Glob (outPath +:+ "/*gen.go")) as [genFiles|]; cbn;
    [|by unfold addEvents].
  unfold bind at 1. rewrite forEach_emit.
  unfold bind at 1. unfold emit at 1. cbn.
  unfold bind at 1.
  destruct (Glob (outPath +:+ "/models/*gen.go")) as [modelFiles|]; cbn.
  - rewrite forEach_emit. unfold addEvents. cbn.
    by rewrite <- !app_assoc.
  - unfold addEvents. cbn. by rewrite <- !app_assoc.
Qed.

End CleanUp.

(** ** The deferred drops of a whole run *)
Section Deferred.
Context `{External}.

Lemma passive_ret {A} (a : A) : passive (ret a).
Proof. done. Qed.

Lemma passive_orFatal {A} (o : option A) : passive (orFatal o).
Proof. intros st. by destruct o. Qed.

Lemma passive_getDB : passive getDB.
Proof. done. Qed.

Lemma passive_emit (e : Event) : passive (emit e).
Proof. done. Qed.

Lemma passive_fatal {A} : passive (@fatal _ A).
Proof. done. Qed.

Lemma passive_bind {A B} (m : M A) (k : A → M B) :
  passive m → (∀ a, passive (k a)) → passive (bind m k).
Proof.
  intros Hm Hk st. unfold bind. destruct (Hm st) as [Hdb Hdef].
  destruct (m st) as [[a| |] st1]; cbn [snd] in *; [|done..].
  destruct (Hk a st1) as [Hdb' Hdef']. by rewrite Hdb', Hdef'.
Qed.

Lemma passive_forEach {A S} (l : list A) (body : A → S → M S) (s : S) :
  (∀ a s, passive (body a s)) → passive (forEach l body s).
Proof.
  intros Hbody. revert s. induction l as [|a l IH]; intros s; cbn [forEach].
  - apply passive_ret.
  - apply passive_bind; [apply Hbody | apply IH].
Qed.

Ltac passive_tac :=
  repeat first
    [ apply passive_ret | apply passive_fatal | apply passive_orFatal
    | apply passive_getDB | apply passive_emit
    | apply passive_forEach; intros
    | apply passive_bind; [|intros]
    | match goal with
      | |- passive (if ?b then _ else _) => destruct b
      | |- passive (match ?o with Some _ => _ | None => _ end) => destruct o
      end ].

Lemma bind_Ok {A B} (m : M A) (k : A → M B) (st st' : St) (b : B) :
  bind m k st = (Ok b, st') →
  ∃ a st1, m st = (Ok a, st1) ∧ k a st1 = (Ok b, st').
Proof.
  unfold bind. destruct (m st) as [[a| |] st1]; [by eauto | done..].
Qed.

Lemma passive_run {A} (m : M A) (st st' : St) (r : Res A) :
  passive m → m st = (r, st') → db st' = db st ∧ deferred st' = deferred st.
Proof. intros Hm Hrun. specialize (Hm st). by rewrite Hrun in Hm. Qed.

(** The deferred statements after [generate], for a configured list of
    materialized views. *)
Lemma generate_deferred (rng : GoRange) (cfg : ConversionConfig)
    (views : list string) (st st' : St) :
  MaterializedViews cfg = Some views →
  generate rng cfg st = (Ok (), st') →
  deferred st'
  = ((λ v, DropView (tmpViewName v)) <$> reverse views) ++ deferred st.
Proof.
  intros Hviews. unfold generate. rewrite Hviews. intros Hgen.
  apply bind_Ok in Hgen as (? & st1 & H1 & Hgen).
  apply passive_run in H1 as [_ Hdef1];
    [|unfold cleanUp; passive_tac].
  apply bind_Ok in Hgen as (tables & st2 & H2 & Hgen).
  apply passive_run in H2 as [_ Hdef2]; [|unfold enumerate; passive_tac].
  apply bind_Ok in Hgen as (views' & st3 & H3 & Hgen).
  cbn in H3. injection H3 as <- <-.
  apply bind_Ok in Hgen as (m & st4 & H4 & Hgen).
  unfold assemble in H4. apply bind_Ok in H4 as (m1 & st3 & Ht & Hv).
  destruct (tableLoop_result rng cfg tables ∅ st2)
    as (? & ? & Ht' & _ & Hdef3 & _).
  rewrite Ht' in Ht. injection Ht as <- <-.
  apply viewLoop_ok in Hv as (Hdef4 & _).
  apply passive_run in Hgen as [_ Hdef5];
    [|unfold generatePostgresDbInit; passive_tac].
  by rewrite Hdef5, Hdef4, Hdef3, Hdef2, Hdef1.
Qed.

(** X12. A run of [postgresToGorm] that returns, for a configured list of
    materialized views, ends with one drop per view, each on the temporary
    view of its materialized view, in the reverse of the order in which
    the views were snapshot. *)
Theorem drops_latest_first (rng : GoRange) (cfg : ConversionConfig)
    (views : list string) :
  MaterializedViews cfg = Some views →
  status (postgresToGorm rng cfg) = 0 →
  ∃ before flags,
    length flags = length views
    ∧ trace (postgresToGorm rng cfg)
      = before
        ++ zip_with EvQuery
             ((λ v, DropView (tmpViewName v)) <$> reverse views) flags.
Proof.
  intros Hviews. unfold postgresToGorm.
  destruct (resolveConnection cfg) as [cfg'|] eqn:Hres; [|done].
  apply resolveConnection_keeps in Hres as (? & ? & ? & ? & ? & ->).
  match goal with |- context [Open ?dsn] => destruct (Open dsn) as [d|] end;
    [|done].
  destruct (Ping d); [done|].
  match goal with
  | |- context [finish ?r] => destruct r as [[[]| |] st'] eqn:Hgen
  end; [|done..].
  intros _. apply generate_deferred with (views := views) in Hgen; [|done].
  cbn [finish trace]. destruct (runDeferred_events st') as (flags & Hlen & ->).
  rewrite Hgen in *. cbn [deferred] in *. rewrite app_nil_r in *.
  exists (events st'), flags. split; [|done].
  by rewrite Hlen, length_fmap, length_reverse.
Qed.

End Deferred.

(** Two materialized views, snapshot in the order [mv1], [mv2]. *)
Lemma drops_latest_first_two :
  MaterializedViews (viewsConfig ["mv1"; "mv2"]) = Some ["mv1"; "mv2"]
  ∧ status (@postgresToGorm (smallWorld noEnv twoMatviews) listed
              (viewsConfig ["mv1"; "mv2"])) = 0
  ∧ ∃ before flags,
      length flags = length ["mv1"; "mv2"]
      ∧ trace (@postgresToGorm (smallWorld noEnv twoMatviews) listed
                 (viewsConfig ["mv1"; "mv2"]))
        = before
          ++ zip_with EvQuery
               ((λ v, DropView (tmpViewName v)) <$> reverse ["mv1"; "mv2"])
               flags.
Proof.
  split; [reflexivity|]. split; [reflexivity|].
  apply (@drops_latest_first (smallWorld noEnv twoMatviews) listed
           (viewsConfig ["mv1"; "mv2"]) ["mv1"; "mv2"]);
    reflexivity.
Defined.

Example two_views_dropped_in_reverse :
  omap (λ e, match e with EvQuery s _ => Some (sql s) | _ => None end)
    (trace (@postgresToGorm (smallWorld noEnv twoMatviews) listed
              (viewsConfig ["mv1"; "mv2"])))
  = ["drop view if exists mv1_temp";
     "create view mv1_temp as select * from mv1";
     "drop view if exists mv2_temp";
     "create view mv2_temp as select * from mv2";
     "drop view mv2_temp"; "drop view mv1_temp"].
Proof. by vm_compute. Qed.

(** ** Entries of the configuration for other tables *)
Section OtherTables.
Context `{External}.

Lemma forEach_ext {A S} (l : list A) (body1 body2 : A → S → M S) (s : S)
    (st : St) :
  (∀ a s st, a ∈ l → body1 a s st = body2 a s st) →
  forEach l body1 s st = forEach l body2 s st.
Proof.
  revert s st. induction l as [|a l IH]; intros s st Hbody; [done|].
  cbn [forEach]. unfold bind.
  rewrite Hbody by apply list_elem_of_here.
  destruct (body2 a s st) as [[s'| |] st1]; [|done..].
  apply IH. intros b s'' st'' Hb. by apply Hbody, list_elem_of_further.
Qed.

(** X13. The assembly reads [ExtraFields] and [JsonTagOverridesByTable]
    under the names of the tables and materialized views it goes through,
    and under no other key: entries for other names, such as tables that do
    not exist, change nothing and are no error. *)
Theorem unlisted_names_ignored (rng : GoRange) (cfg : ConversionConfig)
    (extraFields : gmap string (list ExtraField))
    (overrides : gmap string (gmap string string))
    (tables views : list string) (st : St) :
  (∀ n, n ∈ tables ++ views →
        extraFields !! n = ExtraFields cfg !! n
        ∧ overrides !! n = JsonTagOverridesByTable cfg !! n) →
  assemble rng (withTableMaps cfg extraFields overrides) tables views st
  = assemble rng cfg tables views st.
Proof.
  intros Hsame. unfold assemble, bind.
  rewrite (forEach_ext tables _ (tableModel rng cfg)).
  - destruct (forEach tables (tableModel rng cfg) ∅ st) as [[m| |] st1];
      [|done..].
    apply forEach_ext. intros v s st' Hv.
    destruct (Hsame v) as [Hef Hov]; [apply elem_of_app; by right|].
    unfold viewModel, extraFieldsOf, applyJsonTagOverrides. cbn.
    by rewrite Hef, Hov.
  - intros t s st' Ht.
    destruct (Hsame t) as [Hef Hov]; [apply elem_of_app; by left|].
    unfold tableModel, extraFieldsOf, applyJsonTagOverrides. cbn.
    by rewrite Hef, Hov.
Qed.

End OtherTables.

(** The entries for [future_table] do not reach the model of [mv1]. *)
Lemma unlisted_names_ignored_future :
  (∀ n, n ∈ [] ++ ["mv1"] →
        ExtraFields futureConfig !! n
          = ExtraFields (viewsConfig ["mv1"]) !! n
        ∧ JsonTagOverridesByTable futureConfig !! n
          = JsonTagOverridesByTable (viewsConfig ["mv1"]) !! n)
  ∧ @assemble (smallWorld noEnv oneMatview) listed futureConfig [] ["mv1"]
      (@Build_St (smallWorld noEnv oneMatview) oneMatview [] [])
    = @assemble (smallWorld noEnv oneMatview) listed (viewsConfig ["mv1"])
        [] ["mv1"]
        (@Build_St (smallWorld noEnv oneMatview) oneMatview [] []).
Proof.
  assert (Hsame : ∀ n, n ∈ [] ++ ["mv1"] →
    ExtraFields futureConfig !! n = ExtraFields (viewsConfig ["mv1"]) !! n
    ∧ JsonTagOverridesByTable futureConfig !! n
      = JsonTagOverridesByTable (viewsConfig ["mv1"]) !! n).
  { intros n ->%list_elem_of_singleton. split; reflexivity. }
  split; [exact Hsame|].
  apply (@unlisted_names_ignored (smallWorld noEnv oneMatview) listed
           (viewsConfig ["mv1"]) (ExtraFields futureConfig)
           (JsonTagOverridesByTable futureConfig) [] ["mv1"]
           (@Build_St (smallWorld noEnv oneMatview) oneMatview [] [])).
  exact Hsame.
Defined.

(** ** The start of [main] *)
Section Start.
Context `{External} `{Startup}.

Lemma usage_no_work (prog : string) (exitCode : Z) (errMsg : string)
    (e : Event) :
  e ∈ trace (usage prog exitCode errMsg) → isWork e = false.
Proof.
  unfold usage. cbn [trace]. rewrite elem_of_app.
  intros [He|He].
  - destruct (decide (TrimSpace errMsg ≠ "")).
    + by apply list_elem_of_singleton in He as ->.
    + by apply elem_of_nil in He.
  - rewrite !elem_of_cons in He.
    destruct He as [->|[->|[->|[->|[->|He]]]]]; try done.
    by apply elem_of_nil in He.
Qed.

Lemma inner_work (r : Run) (before : list StartEvent) (e : Event) :
  Inner e ∈ before ++ (Inner <$> trace r) →
  (∀ e', Inner e' ∉ before) →
  e ∈ trace r.
Proof.
  intros [Hin|Hin]%elem_of_app Hbefore; [by apply Hbefore in Hin|].
  apply list_elem_of_fmap in Hin as (e' & [= ->] & He'). done.
Qed.

Lemma validate_complete (rng : GoRange) (cfg cfg' : ConversionConfig) :
  validate (mergeConfig rng cfg) = inr cfg' → ¬ incomplete cfg.
Proof.
  intros (Hout & Hdialect & Hpg & Hsq & _)%validate_inr.
  cbn in Hout, Hdialect, Hpg, Hsq.
  intros [?|[[? ?]|[[Hd [?|?]]|[Hd ?]]]].
  - done.
  - by destruct Hdialect.
  - by destruct (Hpg Hd).
  - by destruct (Hpg Hd).
  - by apply (Hsq Hd).
Qed.

(** X14. From the arguments on, the program does database or file work
    only when it has exactly one argument, which is none of its three
    flags, names a file that is there and can be read as a configuration,
    and this configuration is complete; the run is then the run of [main]
    on this configuration, after the look at the file and its reading. *)
Theorem start_work_only_if (rng : GoRange) (args : list string)
    (t : list StartEvent) (s : Z) (e : Event) :
  start rng args = Some (t, s) →
  Inner e ∈ t →
  isWork e = true →
  ∃ arg0 path cfg,
    args = [arg0; path]
    ∧ path ≠ "-version" ∧ path ≠ "--version"
    ∧ path ≠ "-generateConfigSample"
    ∧ Stat path = None
    ∧ DecodeFile path = inr cfg
    ∧ ¬ incomplete cfg
    ∧ t = EvStat path :: EvDecode path
          :: (Inner <$> trace (main rng (Base arg0) cfg))
    ∧ s = status (main rng (Base arg0) cfg).
Proof.
  intros Hstart Hin Hwork. unfold start in Hstart.
  assert (Husage : ∀ prog code msg before,
    (∀ e', Inner e' ∉ before) →
    Inner e ∉ before ++ (Inner <$> trace (usage prog code msg))).
  { intros prog code msg before Hbefore Hin'.
    apply inner_work in Hin'; [|done].
    apply usage_no_work in Hin'. congruence. }
  assert (Hnone : ∀ e' : Event, Inner e' ∉ @nil StartEvent)
    by (intros ? ?%elem_of_nil; done).
  assert (Hone : ∀ (x : StartEvent) (e' : Event),
    (∀ e'', x ≠ Inner e'') → Inner e' ∉ [x]).
  { intros x e' Hx Hx'%list_elem_of_singleton. symmetry in Hx'.
    by apply Hx in Hx'. }
  assert (Htwo : ∀ (x y : StartEvent) (e' : Event),
    (∀ e'', x ≠ Inner e'') → (∀ e'', y ≠ Inner e'') → Inner e' ∉ [x; y]).
  { intros x y e' Hx Hy. rewrite !elem_of_cons.
    intros [Hx'|[Hy'|?%elem_of_nil]]; [| |done].
    - symmetry in Hx'. by apply Hx in Hx'.
    - symmetry in Hy'. by apply Hy in Hy'. }
  destruct args as [|arg0 [|arg1 [|arg2 rest]]].
  - done.
  - exfalso. revert Hstart. cbv beta iota delta [inner].
    generalize (usage (Base arg0) 2
      "exactly one argument is required: path to a TOML config file or -generateConfigSample")
      (Husage (Base arg0) 2
      "exactly one argument is required: path to a TOML config file or -generateConfigSample"
      [] Hnone).
    intros r Hr [= <- <-]. by apply Hr.
  - destruct (decide (arg1 = "-version" ∨ arg1 = "--version")) as [|Hversion].
    { exfalso. injection Hstart as <- <-.
      by apply list_elem_of_singleton in Hin. }
    destruct (decide (arg1 = "-generateConfigSample")) as [|Hsample].
    { exfalso. destruct (WriteSample _ _) as [err|].
      - assert (Hbefore : ∀ e' : Event,
          Inner e' ∉ [EvWriteSample "gormdb2struct-sample.toml"])
          by (intros e'; by apply Hone).
        revert Hstart. cbv beta iota zeta delta [inner].
        generalize (usage (Base arg0) 2
                      ("failed to write sample config to "
                       +:+ "gormdb2struct-sample.toml" +:+ ": " +:+ err))
          (Husage (Base arg0) 2
             ("failed to write sample config to "
              +:+ "gormdb2struct-sample.toml" +:+ ": " +:+ err)
             [EvWriteSample "gormdb2struct-sample.toml"] Hbefore).
        intros r Hr [= <- <-]. by apply Hr.
      - injection Hstart as <- <-. revert Hin. by apply Htwo. }
    destruct (Stat arg1) as [err|] eqn:Hstat.
    { exfalso.
      assert (Hbefore : ∀ e' : Event, Inner e' ∉ [EvStat arg1])
        by (intros e'; by apply Hone).
      revert Hstart. cbv beta iota zeta delta [inner].
      generalize (usage (Base arg0) 2
                    ("cannot access config file " +:+ arg1 +:+ ": " +:+ err))
        (Husage (Base arg0) 2
           ("cannot access config file " +:+ arg1 +:+ ": " +:+ err)
           [EvStat arg1] Hbefore).
      intros r Hr [= <- <-]. by apply Hr. }
    destruct (DecodeFile arg1) as [err|cfg] eqn:Hdecode.
    { exfalso.
      assert (Hbefore : ∀ e' : Event,
        Inner e' ∉ [EvStat arg1; EvDecode arg1])
        by (intros e'; by apply Htwo).
      revert Hstart. cbv beta iota zeta delta [inner].
      generalize (usage (Base arg0) 2
                    ("failed to parse TOML config: " +:+ err))
        (Husage (Base arg0) 2 ("failed to parse TOML config: " +:+ err)
           [EvStat arg1; EvDecode arg1] Hbefore).
      intros r Hr [= <- <-]. by apply Hr. }
    revert Hstart Hin. cbv beta iota zeta delta [inner].
    assert (Hmain :
      incomplete cfg →
      Inner e ∉ [EvStat arg1; EvDecode arg1]
                ++ (Inner <$> trace (main rng (Base arg0) cfg))).
    { intros Hincomplete.
      destruct (validate (mergeConfig rng cfg)) as [msg|cfg'] eqn:Hv.
      - unfold main. rewrite Hv. apply Husage. intros e'. by apply Htwo.
      - by apply validate_complete in Hv. }
    remember (main rng (Base arg0) cfg) as r eqn:Hr.
    intros [= <- <-] Hin.
    exists arg0, arg1, cfg. rewrite <- Hr.
    split_and!; [done | | | done | done | done | | done | done].
    + intros ->. apply Hversion. by left.
    + intros ->. apply Hversion. by right.
    + intros Hincomplete. by apply (Hmain Hincomplete).
  - exfalso. revert Hstart. cbv beta iota delta [inner].
    generalize (usage (Base arg0) 2
      "exactly one argument is required: path to a TOML config file or -generateConfigSample")
      (Husage (Base arg0) 2
      "exactly one argument is required: path to a TOML config file or -generateConfigSample"
      [] Hnone).
    intros r Hr [= <- <-]. by apply Hr.
Qed.

End Start.

(** The run on a configuration file that is there and complete. *)
Lemma start_work_only_if_config :
  ∃ t s,
    @start (smallWorld noEnv twoTables) (startWith minimalConfig) listed
      ["gormdb2struct"; "config.toml"] = Some (t, s)
    ∧ Inner (EvOpen "host=localhost dbname=my_database") ∈ t
    ∧ isWork (EvOpen "host=localhost dbname=my_database") = true
    ∧ ∃ arg0 path cfg,
        ["gormdb2struct"; "config.toml"] = [arg0; path]
        ∧ path ≠ "-version" ∧ path ≠ "--version"
        ∧ path ≠ "-generateConfigSample"
        ∧ @Stat (startWith minimalConfig) path = None
        ∧ @DecodeFile (startWith minimalConfig) path = inr cfg
        ∧ ¬ incomplete cfg
        ∧ t = EvStat path :: EvDecode path
              :: (Inner <$> trace (@main (smallWorld noEnv twoTables) listed
                                     (@Base (smallWorld noEnv twoTables) arg0)
                                     cfg))
        ∧ s = status (@main (smallWorld noEnv twoTables) listed
                        (@Base (smallWorld noEnv twoTables) arg0) cfg).
Proof.
  eexists _, _.
  assert (Hstart :
    @start (smallWorld noEnv twoTables) (startWith minimalConfig) listed
      ["gormdb2struct"; "config.toml"]
    = Some (EvStat "config.toml" :: EvDecode "config.toml"
              :: (Inner <$> trace (@main (smallWorld noEnv twoTables) listed
                                     "gormdb2struct" minimalConfig)),
            status (@main (smallWorld noEnv twoTables) listed "gormdb2struct"
                      minimalConfig))) by reflexivity.
  assert (Hin :
    Inner (EvOpen "host=localhost dbname=my_database")
    ∈ EvStat "config.toml" :: EvDecode "config.toml"
        :: (Inner <$> trace (@main (smallWorld noEnv twoTables) listed
                               "gormdb2struct" minimalConfig))).
  { do 2 apply list_elem_of_further. vm_compute. apply list_elem_of_here. }
  split; [exact Hstart|]. split; [exact Hin|]. split; [reflexivity|].
  exact (@start_work_only_if (smallWorld noEnv twoTables)
           (startWith minimalConfig) listed
           ["gormdb2struct"; "config.toml"] _ _ _ Hstart Hin eq_refl).
Defined.

(** ** The order of the snapshots *)
Section Protocol.
Context `{External}.

(** X15. The loop over the materialized views takes them in order, and
    for each one sends the drop of a stale temporary view, then the
    creation of the temporary view, and reflects from the temporary view
    only after a creation that succeeded. It ends at the first creation
    that fails, after these two statements, with no reflection and
    nothing done for the views that follow. *)
Theorem snapshot_protocol (rng : GoRange) (cfg : ConversionConfig)
    (views : list string) (modelsMap : gmap string gen.Model) (st : St) :
  ∃ r st' done flags,
    forEach views (viewModel rng cfg) modelsMap st = (r, st')
    ∧ length flags = length done
    ∧ ((∃ m', r = Ok m' ∧ done = views
              ∧ events st'
                = events st
                  ++ concat (zip_with (snapshotEvents cfg) done flags))
       ∨ (∃ v rest dropFailed,
            r = Fatal ∧ views = done ++ v :: rest
            ∧ events st'
              = events st
                ++ concat (zip_with (snapshotEvents cfg) done flags)
                ++ [EvQuery (DropViewIfExists (tmpViewName v)) dropFailed;
                    EvQuery (CreateView (tmpViewName v) v) true])).
Proof.
  revert modelsMap st. induction views as [|v vs IH]; intros modelsMap st.
  - exists (Ok modelsMap), st, [], []. split_and!; [done | done |].
    left. exists modelsMap. by rewrite app_nil_r.
  - cbn [forEach]. unfold bind at 1.
    pose proof (viewModel_result rng cfg v modelsMap st) as Hv.
    cbv zeta in Hv.
    destruct (Query (db st) (DropViewIfExists (tmpViewName v)))
      as [d1 f1]. cbn [fst snd] in Hv.
    destruct (Query d1 (CreateView (tmpViewName v) v)) as [d2 f2].
    cbn [fst snd] in Hv. destruct f2.
    + rewrite Hv. eexists Fatal, _, [], []. split_and!; [done | done |].
      right. by exists v, vs, f1.
    + destruct Hv as (fields & _ & ->).
      edestruct IH as (r & st' & done & flags & -> & Hlen & Hcases).
      exists r, st', (v :: done), (f1 :: flags).
      split_and!; [done | by cbn; rewrite Hlen |].
      destruct Hcases as [(m' & -> & -> & Hev)
                         |(v' & rest & f' & -> & -> & Hev)].
      * left. exists m'. split_and!; [done | done |].
        rewrite Hev. cbn. by rewrite <- !app_assoc.
      * right. exists v', rest, f'. split_and!; [done | done |].
        rewrite Hev. cbn. by rewrite <- !app_assoc.
Qed.

(** X16. The assembly reflects all the tables, in the order of the list
    and as often as each is listed, before it sends the first statement
    for a materialized view; what it does after is never the reflection of
    a table. *)
Theorem tables_before_views (rng : GoRange) (cfg : ConversionConfig)
    (tables views : list string) (st : St) :
  ∃ rest,
    events (assemble rng cfg tables views st).2
    = events st ++ (EvGenerateModel <$> tables) ++ rest
    ∧ Forall (λ e, ∀ t, e ≠ EvGenerateModel t) rest.
Proof.
  unfold assemble, bind.
  destruct (tableLoop_result rng cfg tables ∅ st)
    as (m1 & st1 & -> & _ & _ & Hev & _).
  assert (Hviews : always (λ e, ∀ t, e ≠ EvGenerateModel t) (λ _, True)
                     (forEach views (viewModel rng cfg) m1)).
  { apply always_forEach. intros v s _. unfold viewModel.
    always_tac; done. }
  destruct (Hviews st1) as (rest & Hrest & HP & _); [by apply Forall_true|].
  exists rest. by rewrite Hrest, Hev, <- app_assoc.
Qed.

End Protocol.

(** ** The built-in defaults of [TypeMap] at work *)
Section BuiltInDefaults.
Context `{External}.


End BuiltInDefaults.

